(** * traverse: the navigation state machine of the terminal file browser

    A shallow embedding of [src/main.cpp]: the listing provider
    [getDirectoryContents], the pager [displayFileContent] and the key
    dispatch of [main].  Machine integers are [Z] with their wrap-around
    written out, [std::string] is [string], [std::vector] and [std::stack]
    are lists (a stack has its top at the head).

    The three blocking [getch()] calls of the program are the control
    points of the model; one key event moves the program from one control
    point to the next. *)

From Stdlib Require Import ZArith List String Ascii Bool Lia DecimalString.
Import ListNotations.
Local Open Scope Z_scope.

(** ** C++ scalars, strings and vectors *)
Module Cxx.

(** [int] (32 bits, two's complement). *)
Definition int_wrap (z : Z) : Z := (z + 2 ^ 31) mod 2 ^ 32 - 2 ^ 31.

(** [size_t] (64 bits, unsigned). *)
Definition size_wrap (z : Z) : Z := z mod 2 ^ 64.

(** [std::string::npos], the largest [size_t]. *)
Definition npos : Z := 2 ^ 64 - 1.

Definition size (s : string) : Z := Z.of_nat (String.length s).

(** Index of the last occurrence of [c] in [s], if any. *)
Fixpoint last_index (c : ascii) (s : string) : option nat :=
  match s with
  | EmptyString => None
  | String a s' =>
      match last_index c s' with
      | Some i => Some (S i)
      | None => if Ascii.eqb a c then Some O else None
      end
  end.

(** [s.find_last_of(c)]: the index found, or [npos]. *)
Definition find_last_of (s : string) (c : ascii) : Z :=
  match last_index c s with
  | Some i => Z.of_nat i
  | None => npos
  end.

Fixpoint drop (n : nat) (s : string) : string :=
  match n, s with
  | O, _ => s
  | S n', String _ s' => drop n' s'
  | S _, EmptyString => EmptyString
  end.

Fixpoint take (n : nat) (s : string) : string :=
  match n, s with
  | S n', String a s' => String a (take n' s')
  | _, _ => EmptyString
  end.

(** [s.substr(pos, count)]: throws [std::out_of_range] ([None]) when
    [pos > s.size()], otherwise the characters [pos, pos + count) cut at
    the end of [s]. *)
Definition substr (s : string) (pos count : Z) : option string :=
  if size s <? pos then None
  else Some (take (Z.to_nat (Z.min count (size s - pos))) (drop (Z.to_nat pos) s)).

(** [v[i]] for an [int] index: the index is converted to [size_t]; an
    index outside the vector is undefined behaviour ([None]). *)
Definition vec_at {A : Type} (v : list A) (i : Z) : option A :=
  let idx := size_wrap i in
  if idx <? Z.of_nat (List.length v) then nth_error v (Z.to_nat idx) else None.

(** [operator<<] of a signed integer on a stream: decimal digits. *)
Definition show_int (z : Z) : string := NilZero.string_of_int (Z.to_int z).

End Cxx.

(** ** What the program sees of the operating system *)
Module Posix.

(** The fields of [struct stat] that the program reads.  [st_mtime_text]
    is the text [strftime(.., "%b %d %H:%M", localtime(&st_mtime))]
    yields for the file. *)
Record stat_t : Type := mk_stat
  { st_mode : Z; st_size : Z; st_mtime_text : string }.

(** A file system: [fs_readdir p] is the sequence of [d_name]s that
    [opendir]/[readdir] deliver for [p] ([None] when [opendir] returns
    [NULL]); [fs_stat p] is the result of [stat] ([None] when it fails);
    [fs_lines p] are the lines [std::getline] reads from [p] ([None] when
    the stream cannot be opened). *)
Record FileSystem : Type := mk_fs
  { fs_readdir : string -> option (list string);
    fs_stat : string -> option stat_t;
    fs_lines : string -> option (list string) }.

(** Mode bits of <sys/stat.h>. *)
Definition S_IFMT : Z := 61440.   (* 0170000 *)
Definition S_IFDIR : Z := 16384.  (* 0040000 *)
Definition S_IFREG : Z := 32768.  (* 0100000 *)
Definition S_IRUSR : Z := 256.
Definition S_IWUSR : Z := 128.
Definition S_IXUSR : Z := 64.
Definition S_IRGRP : Z := 32.
Definition S_IWGRP : Z := 16.
Definition S_IXGRP : Z := 8.
Definition S_IROTH : Z := 4.
Definition S_IWOTH : Z := 2.
Definition S_IXOTH : Z := 1.

Definition S_ISDIR (mode : Z) : bool := Z.land mode S_IFMT =? S_IFDIR.
Definition S_ISREG (mode : Z) : bool := Z.land mode S_IFMT =? S_IFREG.

(** Key codes of <ncurses.h>; Enter is 10 and Escape 27 in the source. *)
Definition KEY_DOWN : Z := 258.
Definition KEY_UP : Z := 259.
Definition KEY_LEFT : Z := 260.
Definition KEY_RIGHT : Z := 261.

End Posix.

(** ** The program *)
Module Traverse.
Import Cxx Posix.
Local Open Scope string_scope.
Local Open Scope Z_scope.

(** [formatPermissions] *)
Definition formatPermissions (mode : Z) : string :=
  let bit (m : Z) (yes : string) := if Z.land mode m =? 0 then "-" else yes in
  (if S_ISDIR mode then "d" else "-")
    ++ bit S_IRUSR "r" ++ bit S_IWUSR "w" ++ bit S_IXUSR "x"
    ++ bit S_IRGRP "r" ++ bit S_IWGRP "w" ++ bit S_IXGRP "x"
    ++ bit S_IROTH "r" ++ bit S_IWOTH "w" ++ bit S_IXOTH "x".

(** The row built for one directory entry (the [#else] branch of
    [getDirectoryContents]). *)
Definition entry_row (fileStat : stat_t) (fileName : string) : string :=
  formatPermissions (st_mode fileStat) ++ " "
    ++ show_int (st_size fileStat) ++ " "
    ++ st_mtime_text fileStat ++ " "
    ++ fileName.

(** [getDirectoryContents]: one row per entry whose [stat] succeeds, in
    [readdir] order; no row at all when the directory cannot be opened. *)
Definition getDirectoryContents (fs : FileSystem) (dirPath : string) : list string :=
  match fs_readdir fs dirPath with
  | Some names =>
      flat_map
        (fun fileName =>
           let fullPath := dirPath ++ "/" ++ fileName in
           match fs_stat fs fullPath with
           | Some fileStat => [entry_row fileStat fileName]
           | None => []
           end)
        names
  | None => []
  end.

(** [isReadable] *)
Definition isReadable (fs : FileSystem) (filePath : string) : bool :=
  match fs_lines fs filePath with Some _ => true | None => false end.

(** The locals of [displayFileContent] that live across its loop. *)
Record PagerState : Type := mk_pager
  { filePath : string;
    lines : list string;
    totalLines : Z;
    visibleRows : Z;
    topLine : Z;
    currentLine : Z }.

(** The locals of [main]. *)
Record NavState : Type := mk_nav
  { currentDir : string;
    contents : list string;
    choice : Z;
    backStack : list string;
    forwardStack : list string }.

(** Where the program is blocked in [getch()]: in the loop of [main], in
    the loop of [displayFileContent], at the last [getch()] of
    [displayFileContent], or nowhere because [main] has returned. *)
Inductive Control : Type :=
  | AtMain
  | AtPager (p : PagerState)
  | AtReturn
  | Finished.

Record Machine : Type := mk_machine { nav : NavState; ctl : Control }.

(** [displayFileContent] up to its first [getch()]: a file that is not
    readable is handed to the default application and the function
    returns at once; so does the function when the second open fails. *)
Definition displayFileContent_open (fs : FileSystem) (LINES : Z) (path : string) : Control :=
  if negb (isReadable fs path) then AtMain
  else
    match fs_lines fs path with
    | None => AtMain
    | Some ls =>
        AtPager {| filePath := path;
                   lines := ls;
                   totalLines := int_wrap (Z.of_nat (List.length ls));
                   visibleRows := int_wrap (LINES - 2);
                   topLine := 0;
                   currentLine := 0 |}
    end.

(** [case KEY_UP] of the pager. *)
Definition pager_up (p : PagerState) : PagerState :=
  let cur := if 0 <? currentLine p then int_wrap (currentLine p - 1) else currentLine p in
  let top := if cur <? topLine p then int_wrap (topLine p - 1) else topLine p in
  {| filePath := filePath p; lines := lines p; totalLines := totalLines p;
     visibleRows := visibleRows p; topLine := top; currentLine := cur |}.

(** [case KEY_DOWN] of the pager. *)
Definition pager_down (p : PagerState) : PagerState :=
  let cur := if currentLine p <? int_wrap (totalLines p - 1)
             then int_wrap (currentLine p + 1) else currentLine p in
  let top := if int_wrap (topLine p + visibleRows p) <=? cur
             then int_wrap (topLine p + 1) else topLine p in
  {| filePath := filePath p; lines := lines p; totalLines := totalLines p;
     visibleRows := visibleRows p; topLine := top; currentLine := cur |}.

(** The [switch] of the pager loop, and what follows the loop. *)
Definition pager_key (ch : Z) (p : PagerState) : Control :=
  if ch =? KEY_UP then AtPager (pager_up p)
  else if ch =? KEY_DOWN then AtPager (pager_down p)
  else if ch =? 27 then AtReturn
  else AtPager p.

Definition with_choice (st : NavState) (c : Z) : NavState :=
  {| currentDir := currentDir st; contents := contents st; choice := c;
     backStack := backStack st; forwardStack := forwardStack st |}.

(** [case KEY_UP] of [main]. *)
Definition main_up (st : NavState) : NavState :=
  with_choice st (Z.max 0 (int_wrap (choice st - 1))).

(** [case KEY_DOWN] of [main]. *)
Definition main_down (st : NavState) : NavState :=
  with_choice st
    (Z.min (int_wrap (int_wrap (Z.of_nat (List.length (contents st))) - 1))
           (int_wrap (choice st + 1))).

(** The name cut out of the selected row:
    [row.substr(row.find_last_of(" ") + 1)]. *)
Definition selected_of (row : string) : option string :=
  substr row (size_wrap (find_last_of row " " + 1)) npos.

(** [case 10] of [main].  [None] stands for an execution without defined
    behaviour (a vector read out of range) or ended by an exception. *)
Definition main_enter (fs : FileSystem) (LINES : Z) (st : NavState) : option Machine :=
  match vec_at (contents st) (choice st) with
  | None => None
  | Some row =>
    match selected_of row with
    | None => None
    | Some selected =>
      let selectedPath := currentDir st ++ "/" ++ selected in
      let reload (dir : string) (back fwd : list string) :=
        {| nav := {| currentDir := dir;
                     contents := getDirectoryContents fs dir;
                     choice := 0;
                     backStack := back;
                     forwardStack := fwd |};
           ctl := AtMain |} in
      match fs_stat fs selectedPath with
      | Some fileStat =>
          if S_ISDIR (st_mode fileStat) then
            if (selected =? "..")%string then
              let lastSlash := find_last_of (currentDir st) "/" in
              if negb (lastSlash =? npos) then
                match substr (currentDir st) 0 lastSlash with
                | Some parent => Some (reload parent (currentDir st :: backStack st) [])
                | None => None
                end
              else Some (reload (currentDir st) (backStack st) (forwardStack st))
            else Some (reload selectedPath (currentDir st :: backStack st) [])
          else if S_ISREG (st_mode fileStat) then
            Some {| nav := st; ctl := displayFileContent_open fs LINES selectedPath |}
          else Some {| nav := st; ctl := AtMain |}
      | None => Some {| nav := st; ctl := AtMain |}
      end
    end
  end.

(** [case KEY_LEFT] of [main]. *)
Definition main_left (fs : FileSystem) (st : NavState) : NavState :=
  match backStack st with
  | top :: rest =>
      {| currentDir := top;
         contents := getDirectoryContents fs top;
         choice := 0;
         backStack := rest;
         forwardStack := currentDir st :: forwardStack st |}
  | [] => st
  end.

(** [case KEY_RIGHT] of [main]. *)
Definition main_right (fs : FileSystem) (st : NavState) : NavState :=
  match forwardStack st with
  | top :: rest =>
      {| currentDir := top;
         contents := getDirectoryContents fs top;
         choice := 0;
         backStack := currentDir st :: backStack st;
         forwardStack := rest |}
  | [] => st
  end.

(** The [switch] of the loop of [main]. *)
Definition main_key (fs : FileSystem) (LINES : Z) (ch : Z) (st : NavState) : option Machine :=
  if ch =? KEY_UP then Some {| nav := main_up st; ctl := AtMain |}
  else if ch =? KEY_DOWN then Some {| nav := main_down st; ctl := AtMain |}
  else if ch =? 10 then main_enter fs LINES st
  else if ch =? KEY_LEFT then Some {| nav := main_left fs st; ctl := AtMain |}
  else if ch =? KEY_RIGHT then Some {| nav := main_right fs st; ctl := AtMain |}
  else if ch =? 27 then Some {| nav := st; ctl := Finished |}
  else Some {| nav := st; ctl := AtMain |}.

(** One key event, delivered to the [getch()] the program is blocked in. *)
Definition step (fs : FileSystem) (LINES : Z) (ch : Z) (m : Machine) : option Machine :=
  match ctl m with
  | AtMain => main_key fs LINES ch (nav m)
  | AtPager p => Some {| nav := nav m; ctl := pager_key ch p |}
  | AtReturn => Some {| nav := nav m; ctl := AtMain |}
  | Finished => Some m
  end.

(** A sequence of key events. *)
Fixpoint run (fs : FileSystem) (LINES : Z) (keys : list Z) (m : Machine) : option Machine :=
  match keys with
  | [] => Some m
  | ch :: rest =>
      match step fs LINES ch m with
      | Some m' => run fs LINES rest m'
      | None => None
      end
  end.

(** A sequence of key events inside the pager. *)
Definition pager_run (keys : list Z) (p : PagerState) : Control :=
  fold_left
    (fun c ch => match c with AtPager q => pager_key ch q | _ => c end)
    keys (AtPager p).

(** The start of [main]: the working directory and its listing. *)
Definition main_init (fs : FileSystem) (cwd : string) : Machine :=
  {| nav := {| currentDir := cwd;
               contents := getDirectoryContents fs cwd;
               choice := 0;
               backStack := [];
               forwardStack := [] |};
     ctl := AtMain |}.

(** One [mvprintw(row, 0, ..)] call of a redraw: the screen row, the
    string passed, and whether [A_REVERSE] is on for it. *)
Record Draw : Type := mk_draw
  { draw_row : Z; draw_text : string; draw_reverse : bool }.

(** The [for] loop that prints the listing in [main], from index [i] on;
    [n] counts the iterations that the bound [i < contents.size()] leaves.
    In the comparison [i] is converted to [size_t]. *)
Fixpoint main_draw_from (n : nat) (i : Z) (st : NavState) : option (list Draw) :=
  match n with
  | O => Some []
  | S n' =>
      if size_wrap i <? Z.of_nat (List.length (contents st)) then
        match vec_at (contents st) i with
        | Some row =>
            match main_draw_from n' (int_wrap (i + 1)) st with
            | Some rest =>
                Some ({| draw_row := int_wrap (i + 1);
                         draw_text := row;
                         draw_reverse := i =? choice st |} :: rest)
            | None => None
            end
        | None => None
        end
      else Some []
  end.

(** The redraw at the head of the loop of [main]. *)
Definition main_draw (st : NavState) : option (list Draw) :=
  match main_draw_from (List.length (contents st)) 0 st with
  | Some rows =>
      Some ({| draw_row := 0;
               draw_text := "Directory: " ++ currentDir st;
               draw_reverse := false |} :: rows)
  | None => None
  end.



End Traverse.

(** ** The vocabulary of the specification *)
Module Spec.
Import Cxx Posix Traverse.

(** [clamp(x, lo, hi)] *)
Definition clamp (x lo hi : Z) : Z := Z.max lo (Z.min x hi).

(** The [delta] of a key event: -1 for Up, +1 for Down. *)
Definition key_delta (ch : Z) : Z :=
  if ch =? KEY_UP then -1 else if ch =? KEY_DOWN then 1 else 0.

Definition is_up_down (ch : Z) : Prop := ch = KEY_UP \/ ch = KEY_DOWN.

(** The pager scroll invariant. *)
Definition scroll_invariant (p : PagerState) : Prop :=
  topLine p <= currentLine p < topLine p + visibleRows p.

(** The ranges the pager keeps its integers in: no [int] operation of
    the loop overflows inside them. *)
Definition pager_bounded (p : PagerState) : Prop :=
  0 <= topLine p /\
  0 <= currentLine p <= Z.max 0 (totalLines p - 1) /\
  totalLines p = Z.of_nat (List.length (lines p)) /\
  1 <= visibleRows p /\
  totalLines p + visibleRows p < 2 ^ 31.

(** The selection bounds. *)
Definition selection_in_range (st : NavState) : Prop :=
  0 <= choice st <= Z.of_nat (List.length (contents st)) - 1.

(** [s] fits a [std::string]: its size is below [npos]. *)
Definition fits (s : string) : Prop := size s < npos.

(** [suffix] ends [s]. *)
Definition ends_with (s suffix : string) : Prop :=
  exists front : string, s = (front ++ suffix)%string.

Definition is_left_right (ch : Z) : Prop := ch = KEY_LEFT \/ ch = KEY_RIGHT.

(** The visited paths in order: the back stack from its bottom, the
    current path, the forward stack from its top. *)
Definition timeline (st : NavState) : list string :=
  rev (backStack st) ++ currentDir st :: forwardStack st.

(** The listing shown is the listing of the current path. *)
Definition listing_in_sync (fs : FileSystem) (st : NavState) : Prop :=
  contents st = getDirectoryContents fs (currentDir st).

(** The cursor is on a row of the listing; on an empty listing it is 0
    or -1. *)
Definition cursor_ok (st : NavState) : Prop :=
  selection_in_range st \/ (contents st = [] /\ -1 <= choice st <= 0).

(** No listing of the file system has 2^31 rows or more. *)
Definition listings_fit_int (fs : FileSystem) : Prop :=
  forall dirPath : string,
    Z.of_nat (List.length (getDirectoryContents fs dirPath)) < 2 ^ 31.

(** The top line is never past the last full window of the file. *)
Definition window_in_file (p : PagerState) : Prop :=
  0 <= topLine p <= Z.max 0 (totalLines p - visibleRows p).

(** [f i, f (i + 1), .., f (i + n - 1)] *)
Definition rows_from {A : Type} (f : Z -> A) (i : Z) (n : nat) : list A :=
  map (fun j => f (i + Z.of_nat j)) (seq 0 n).

(** [n] times the key [ch]. *)
Definition presses (n : nat) (ch : Z) : list Z := repeat ch n.

End Spec.

(** ** A small file system to run the program on *)
Module Demo.
Import Cxx Posix Traverse.
Local Open Scope string_scope.

Definition among (p : string) (ps : list string) : bool := existsb (String.eqb p) ps.

Definition dir_stat : stat_t := mk_stat 16877 4096 "Oct 30 04:21".   (* drwxr-xr-x *)
Definition locked_stat : stat_t := mk_stat 16384 4096 "Oct 30 04:21". (* d--------- *)
Definition file_stat : stat_t := mk_stat 33188 12 "Oct 30 04:21".    (* -rw-r--r-- *)

(** [/a] holds the directories [b] (with [c] in it, and [d] in [c]) and
    [locked] (which cannot be opened) and the files [f.txt] and
    [my file]; [work] is a directory reached by a relative path. *)
Definition demo_fs : FileSystem :=
  {| fs_readdir := fun p =>
       if p =? "/a" then Some ["."; ".."; "b"; "f.txt"; "my file"; "locked"]
       else if p =? "/a/b" then Some ["."; ".."; "c"]
       else if p =? "/a/b/c" then Some ["."; ".."; "d"]
       else if p =? "/a/b/c/d" then Some ["."; ".."]
       else if p =? "work" then Some ["."; ".."; "notes"]
       else None;
     fs_stat := fun p =>
       if among p ["/a"; "/a/."; "/a/.."; "/a/b"; "/a/b/."; "/a/b/..";
                   "/a/b/c"; "/a/b/c/."; "/a/b/c/.."; "/a/b/c/d";
                   "/a/b/c/d/."; "/a/b/c/d/.."; "work"; "work/."; "work/.."]
       then Some dir_stat
       else if p =? "/a/locked" then Some locked_stat
       else if among p ["/a/f.txt"; "/a/my file"; "work/notes"] then Some file_stat
       else None;
     fs_lines := fun p =>
       if p =? "/a/f.txt" then Some ["one"; "two"; "three"; "four"]
       else if p =? "/a/my file" then Some ["spaced"]
       else if p =? "work/notes" then Some []
       else None |}.

(** A terminal of 24 rows. *)
Definition demo_LINES : Z := 24.

(** [main] at [/a] with the cursor on the row of index [c]. *)
Definition at_a (c : Z) : NavState :=
  {| currentDir := "/a";
     contents := getDirectoryContents demo_fs "/a";
     choice := c;
     backStack := [];
     forwardStack := [] |}.

(** [main] at the relative path [work] with the cursor on the row of
    index [c]. *)
Definition at_work (c : Z) : NavState :=
  {| currentDir := "work";
     contents := getDirectoryContents demo_fs "work";
     choice := c;
     backStack := [];
     forwardStack := [] |}.

(** [main] at [/a/b], entered from [/a], with the cursor on the row of
    index [c]. *)
Definition at_b (c : Z) : NavState :=
  {| currentDir := "/a/b";
     contents := getDirectoryContents demo_fs "/a/b";
     choice := c;
     backStack := ["/a"];
     forwardStack := [] |}.

(** [main] at [/a/b/c], after entering [b], [c] and [d] from [/a] and
    going back once. *)
Definition at_c_with_history : NavState :=
  {| currentDir := "/a/b/c";
     contents := getDirectoryContents demo_fs "/a/b/c";
     choice := 0;
     backStack := ["/a/b"; "/a"];
     forwardStack := ["/a/b/c/d"] |}.

End Demo.

Import Cxx Posix Traverse Spec.

(** ** Machine arithmetic and strings *)
Section CxxFacts.

Lemma int_wrap_small (z : Z) : - 2 ^ 31 <= z < 2 ^ 31 -> int_wrap z = z.
Proof.
  intros Hz. unfold int_wrap.
  rewrite Z.mod_small by lia. lia.
Qed.

Lemma size_wrap_small (z : Z) : 0 <= z < 2 ^ 64 -> size_wrap z = z.
Proof. intros Hz. unfold size_wrap. apply Z.mod_small. exact Hz. Qed.

Lemma last_index_lt (c : ascii) (s : string) (i : nat) :
  last_index c s = Some i -> (i < String.length s)%nat.
Proof.
  revert i. induction s as [|a s IH]; simpl; intros i Hi.
  - discriminate.
  - destruct (last_index c s) as [j|].
    + injection Hi as <-. specialize (IH j eq_refl). lia.
    + destruct (Ascii.eqb a c); [injection Hi as <-; lia | discriminate].
Qed.

Lemma last_index_app (c : ascii) (front back : string) :
  last_index c back = None ->
  last_index c (front ++ String c back) = Some (String.length front).
Proof.
  intros Hback. induction front as [|a front IH]; simpl.
  - rewrite Hback, Ascii.eqb_refl. reflexivity.
  - rewrite IH. reflexivity.
Qed.

Lemma drop_app (front back : string) :
  drop (String.length front) (front ++ back) = back.
Proof. induction front as [|a front IH]; simpl; [destruct back|]; auto. Qed.

Lemma take_all (n : nat) (s : string) : (String.length s <= n)%nat -> take n s = s.
Proof.
  revert n. induction s as [|a s IH]; intros [|n] Hn; simpl in *; try reflexivity; try lia.
  rewrite IH by lia. reflexivity.
Qed.

Lemma take_drop (n : nat) (s : string) : (take n s ++ drop n s)%string = s.
Proof.
  revert s. induction n as [|n IH]; intros [|a s]; simpl; try reflexivity.
  rewrite IH. reflexivity.
Qed.

Lemma length_append (s t : string) :
  String.length (s ++ t) = (String.length s + String.length t)%nat.
Proof. induction s as [|a s IH]; simpl; [|rewrite IH]; reflexivity. Qed.

Lemma length_drop (n : nat) (s : string) :
  String.length (drop n s) = (String.length s - n)%nat.
Proof.
  revert s. induction n as [|n IH]; intros [|a s]; simpl; try reflexivity.
  apply IH.
Qed.

Lemma append_assoc (s t u : string) : ((s ++ t) ++ u = s ++ (t ++ u))%string.
Proof. induction s as [|a s IH]; simpl; [|rewrite IH]; reflexivity. Qed.

End CxxFacts.

(** ** The listing provider and the name cut out of a row *)
Section Listing.

Local Open Scope string_scope.

Lemma entry_row_split (fileStat : stat_t) (fileName : string) :
  entry_row fileStat fileName =
  (formatPermissions (st_mode fileStat) ++ " " ++ show_int (st_size fileStat) ++ " "
     ++ st_mtime_text fileStat) ++ String " " fileName.
Proof.
  unfold entry_row. rewrite !append_assoc. reflexivity.
Qed.

(** Every row ends with the name of its entry, with nothing after it. *)
Lemma entry_row_ends_with_name (fileStat : stat_t) (fileName : string) :
  ends_with (entry_row fileStat fileName) fileName.
Proof.
  exists (formatPermissions (st_mode fileStat) ++ " " ++ show_int (st_size fileStat) ++ " "
            ++ st_mtime_text fileStat ++ " ").
  unfold entry_row. rewrite !append_assoc. reflexivity.
Qed.

(** A name without a space is what [main] cuts out of a row that ends
    with a space and that name. *)
Lemma selected_of_app (front name : string) :
  last_index " " name = None ->
  fits (front ++ String " " name) ->
  selected_of (front ++ String " " name) = Some name.
Proof.
  intros Hname Hfits. unfold fits, size in Hfits.
  rewrite length_append in Hfits. simpl String.length in Hfits.
  unfold selected_of, find_last_of. rewrite (last_index_app _ _ _ Hname).
  assert (Hnpos : npos = 2 ^ 64 - 1) by reflexivity.
  rewrite size_wrap_small by lia.
  unfold substr, size. rewrite length_append. simpl String.length.
  destruct (Z.ltb_spec (Z.of_nat (String.length front + S (String.length name)))
                       (Z.of_nat (String.length front) + 1)) as [Hlt|_]; [lia|].
  replace (Z.to_nat (Z.of_nat (String.length front) + 1))
    with (String.length (front ++ " ")) by (rewrite length_append; simpl; lia).
  replace (front ++ String " " name) with ((front ++ " ") ++ name)
    by (rewrite append_assoc; reflexivity).
  rewrite drop_app. rewrite take_all by lia. reflexivity.
Qed.

Lemma selected_of_entry_row (fileStat : stat_t) (fileName : string) :
  last_index " " fileName = None ->
  fits (entry_row fileStat fileName) ->
  selected_of (entry_row fileStat fileName) = Some fileName.
Proof.
  rewrite entry_row_split. apply selected_of_app.
Qed.

(** The rows of a listing are the rows of the entries [readdir] delivers
    and [stat] accepts. *)
Lemma getDirectoryContents_rows (fs : FileSystem) (dirPath row : string) :
  In row (getDirectoryContents fs dirPath) ->
  exists (names : list string) (fileName : string) (fileStat : stat_t),
    fs_readdir fs dirPath = Some names /\ In fileName names /\
    fs_stat fs (dirPath ++ "/" ++ fileName) = Some fileStat /\
    row = entry_row fileStat fileName.
Proof.
  unfold getDirectoryContents.
  destruct (fs_readdir fs dirPath) as [names|]; [|intros []].
  intros Hin. apply in_flat_map in Hin. destruct Hin as (fileName & Hname & Hrow).
  destruct (fs_stat fs (dirPath ++ "/" ++ fileName)) as [fileStat|] eqn:Hstat.
  - destruct Hrow as [<-|[]]. exists names, fileName, fileStat. auto.
  - destruct Hrow.
Qed.

(** The part of C3 that the program meets: every row of a listing ends
    with the name of its entry, and a name without a space is recovered
    from its row. *)
Lemma listing_rows_recover_plain_names (fs : FileSystem) (dirPath row : string) :
  In row (getDirectoryContents fs dirPath) ->
  exists (fileName : string),
    ends_with row fileName /\
    (last_index " " fileName = None -> fits row -> selected_of row = Some fileName).
Proof.
  intros Hin. apply getDirectoryContents_rows in Hin.
  destruct Hin as (names & fileName & fileStat & _ & _ & _ & ->).
  exists fileName. split.
  - apply entry_row_ends_with_name.
  - apply selected_of_entry_row.
Qed.

(** C3 (the program departs from the claim): in [/a] of the example file
    system the provider returns the row of the file named [my file]; the
    row ends with that name, but the suffix after its last space is
    [file], so that Enter on the row resolves [/a/file], which does not
    exist, instead of [/a/my file], and opens nothing. *)
Theorem name_with_space_not_recovered :
  let row := "-rw-r--r-- 12 Oct 30 04:21 my file" in
  vec_at (getDirectoryContents Demo.demo_fs "/a") 4 = Some row /\
  row = entry_row Demo.file_stat "my file" /\
  ends_with row "my file" /\
  selected_of row = Some "file" /\
  selected_of row <> Some "my file" /\
  fs_stat Demo.demo_fs "/a/file" = None /\
  isReadable Demo.demo_fs "/a/my file" = true /\
  main_enter Demo.demo_fs Demo.demo_LINES (Demo.at_a 4)
    = Some {| nav := Demo.at_a 4; ctl := AtMain |}.
Proof.
  cbv zeta. repeat split; try reflexivity.
  - exists "-rw-r--r-- 12 Oct 30 04:21 ". reflexivity.
  - discriminate.
Qed.

End Listing.

(** ** Running the machine *)
Section Running.

Variable fs : FileSystem.
Variable LINES : Z.

Lemma run_cons (ch : Z) (keys : list Z) (m : Machine) :
  run fs LINES (ch :: keys) m =
  match step fs LINES ch m with
  | Some m' => run fs LINES keys m'
  | None => None
  end.
Proof. reflexivity. Qed.

Lemma run_app (keys keys' : list Z) (m : Machine) :
  run fs LINES (keys ++ keys') m =
  match run fs LINES keys m with
  | Some m' => run fs LINES keys' m'
  | None => None
  end.
Proof.
  revert m. induction keys as [|ch keys IH]; intros m; [reflexivity|].
  rewrite <- app_comm_cons, !run_cons.
  destruct (step fs LINES ch m); [apply IH | reflexivity].
Qed.

Lemma step_at_main (ch : Z) (st : NavState) :
  step fs LINES ch {| nav := st; ctl := AtMain |} = main_key fs LINES ch st.
Proof. reflexivity. Qed.

Lemma step_at_pager (ch : Z) (st : NavState) (p : PagerState) :
  step fs LINES ch {| nav := st; ctl := AtPager p |}
    = Some {| nav := st; ctl := pager_key ch p |}.
Proof. reflexivity. Qed.

Lemma step_at_return (ch : Z) (st : NavState) :
  step fs LINES ch {| nav := st; ctl := AtReturn |}
    = Some {| nav := st; ctl := AtMain |}.
Proof. reflexivity. Qed.

End Running.

(** ** The selection cursor *)
Section Selection.

Variable fs : FileSystem.
Variable LINES : Z.

Lemma main_key_up (st : NavState) :
  main_key fs LINES KEY_UP st = Some {| nav := main_up st; ctl := AtMain |}.
Proof. reflexivity. Qed.

Lemma main_key_down (st : NavState) :
  main_key fs LINES KEY_DOWN st = Some {| nav := main_down st; ctl := AtMain |}.
Proof. reflexivity. Qed.

(** On a listing that is not empty, Up and Down clamp the cursor. *)
Lemma up_down_clamped (st : NavState) (ch : Z) :
  is_up_down ch ->
  Z.of_nat (List.length (contents st)) < 2 ^ 31 ->
  selection_in_range st ->
  exists st' : NavState,
    main_key fs LINES ch st = Some {| nav := st'; ctl := AtMain |} /\
    choice st' = clamp (choice st + key_delta ch) 0
                       (Z.of_nat (List.length (contents st)) - 1) /\
    st' = with_choice st (choice st') /\
    selection_in_range st'.
Proof.
  intros Hch Hlen [Hlo Hhi].
  assert (H31 : 2 ^ 31 = 2147483648) by reflexivity.
  destruct Hch as [-> | ->].
  - exists (main_up st). rewrite main_key_up. split; [reflexivity|].
    unfold main_up, selection_in_range, clamp, key_delta; simpl.
    rewrite int_wrap_small by lia. repeat split; try reflexivity; lia.
  - exists (main_down st). rewrite main_key_down. split; [reflexivity|].
    unfold main_down, selection_in_range, clamp, key_delta; simpl.
    rewrite (int_wrap_small (Z.of_nat _)) by lia.
    rewrite !int_wrap_small by lia. repeat split; try reflexivity; lia.
Qed.

(** The part of C1 that the program meets: on a listing that is not
    empty the cursor stays in range along every sequence of Up and Down. *)
Lemma selection_stays_in_range (keys : list Z) (st : NavState) :
  Forall is_up_down keys ->
  Z.of_nat (List.length (contents st)) < 2 ^ 31 ->
  selection_in_range st ->
  exists st' : NavState,
    run fs LINES keys {| nav := st; ctl := AtMain |} = Some {| nav := st'; ctl := AtMain |} /\
    st' = with_choice st (choice st') /\
    selection_in_range st'.
Proof.
  intros Hkeys. revert st. induction Hkeys as [|ch keys Hch _ IH]; intros st Hlen Hin.
  - exists st. split; [reflexivity|]. split; [destruct st; reflexivity | exact Hin].
  - destruct (up_down_clamped st ch Hch Hlen Hin) as (st1 & Hstep & _ & Hst1 & Hin1).
    assert (Hc : contents st1 = contents st) by (rewrite Hst1; reflexivity).
    destruct (IH st1) as (st' & Hrun & Hst' & Hin'); [rewrite Hc; exact Hlen | exact Hin1 |].
    exists st'. rewrite run_cons, step_at_main, Hstep. split; [exact Hrun|]. split; [|exact Hin'].
    rewrite Hst'. rewrite Hst1. reflexivity.
Qed.

(** Up on an empty listing leaves the cursor at 0. *)
Lemma up_on_empty_listing (st : NavState) :
  choice st = 0 -> choice (main_up st) = 0.
Proof. intros H. unfold main_up; simpl. rewrite H. reflexivity. Qed.

End Selection.

(** C1 (the program departs from the claim): entering the directory
    [/a/locked], which cannot be opened, leaves an empty listing with the
    cursor at 0; the next Down sets the cursor to -1, where the claim asks
    for a cursor that stays at 0, and Enter then reads the vector out of
    range. *)
Theorem down_on_empty_listing_sets_minus_one :
  let enter_locked := [KEY_DOWN; KEY_DOWN; KEY_DOWN; KEY_DOWN; KEY_DOWN; 10] in
  let emptied := {| currentDir := "/a/locked"; contents := []; choice := 0;
                    backStack := ["/a"%string]; forwardStack := [] |} in
  run Demo.demo_fs Demo.demo_LINES enter_locked (main_init Demo.demo_fs "/a")
    = Some {| nav := emptied; ctl := AtMain |} /\
  main_key Demo.demo_fs Demo.demo_LINES KEY_DOWN emptied
    = Some {| nav := with_choice emptied (-1); ctl := AtMain |} /\
  clamp (choice emptied + key_delta KEY_DOWN) 0 (Z.of_nat (List.length (contents emptied)) - 1) = 0 /\
  run Demo.demo_fs Demo.demo_LINES (enter_locked ++ [KEY_DOWN; 10]) (main_init Demo.demo_fs "/a")
    = None.
Proof.
  cbv zeta. repeat split; vm_compute; reflexivity.
Qed.

(** ** Enter *)
Section Enter.

Variable fs : FileSystem.
Variable LINES : Z.

Local Open Scope string_scope.
Local Open Scope Z_scope.

Lemma substr_prefix (s : string) (i : nat) :
  (i <= String.length s)%nat -> substr s 0 (Z.of_nat i) = Some (take i s).
Proof.
  intros Hi. unfold substr, size.
  destruct (Z.ltb_spec (Z.of_nat (String.length s)) 0) as [Hlt|_]; [lia|].
  rewrite Z.min_l by lia. rewrite Nat2Z.id. reflexivity.
Qed.

(** The last occurrence of [c] splits [s] into what is before it and a
    rest without [c]. *)
Lemma last_index_split (c : ascii) (s : string) (i : nat) :
  last_index c s = Some i ->
  s = take i s ++ String c (drop (S i) s) /\ last_index c (drop (S i) s) = None.
Proof.
  revert i. induction s as [|a s IH]; intros i Hi; [discriminate|].
  simpl in Hi. destruct (last_index c s) as [j|] eqn:Hs.
  - injection Hi as <-. destruct (IH j eq_refl) as [Heq Hnone].
    split; [|exact Hnone].
    change (String a s = String a (take j s ++ String c (drop (S j) s))).
    rewrite <- Heq. reflexivity.
  - destruct (Ascii.eqb a c) eqn:Hac; [|discriminate].
    injection Hi as <-. apply Ascii.eqb_eq in Hac. subst a.
    split; [reflexivity | exact Hs].
Qed.

Lemma find_last_of_npos (s : string) (c : ascii) :
  fits s -> (find_last_of s c = npos <-> last_index c s = None).
Proof.
  intros Hfits. unfold find_last_of, fits, size in *.
  destruct (last_index c s) as [i|] eqn:Hi.
  - apply last_index_lt in Hi. split; [lia | discriminate].
  - split; reflexivity.
Qed.

(** Enter once the selected row and the name cut out of it are known. *)
Lemma main_enter_resolved (st : NavState) (row selected : string) :
  vec_at (contents st) (choice st) = Some row ->
  selected_of row = Some selected ->
  main_enter fs LINES st =
  match fs_stat fs (currentDir st ++ "/" ++ selected) with
  | Some fileStat =>
      if S_ISDIR (st_mode fileStat) then
        if (selected =? "..")%string then
          if negb (find_last_of (currentDir st) "/" =? npos) then
            match substr (currentDir st) 0 (find_last_of (currentDir st) "/") with
            | Some parent =>
                Some {| nav := {| currentDir := parent;
                                  contents := getDirectoryContents fs parent;
                                  choice := 0;
                                  backStack := currentDir st :: backStack st;
                                  forwardStack := [] |};
                        ctl := AtMain |}
            | None => None
            end
          else Some {| nav := {| currentDir := currentDir st;
                                 contents := getDirectoryContents fs (currentDir st);
                                 choice := 0;
                                 backStack := backStack st;
                                 forwardStack := forwardStack st |};
                       ctl := AtMain |}
        else Some {| nav := {| currentDir := currentDir st ++ "/" ++ selected;
                               contents := getDirectoryContents fs (currentDir st ++ "/" ++ selected);
                               choice := 0;
                               backStack := currentDir st :: backStack st;
                               forwardStack := [] |};
                     ctl := AtMain |}
      else if S_ISREG (st_mode fileStat) then
        Some {| nav := st;
                ctl := displayFileContent_open fs LINES (currentDir st ++ "/" ++ selected) |}
      else Some {| nav := st; ctl := AtMain |}
  | None => Some {| nav := st; ctl := AtMain |}
  end.
Proof.
  intros Hrow Hsel. unfold main_enter. rewrite Hrow, Hsel. reflexivity.
Qed.

(** Enter on a directory entry other than [..]. *)
Lemma main_enter_directory (st : NavState) (row selected : string) (fileStat : stat_t) :
  vec_at (contents st) (choice st) = Some row ->
  selected_of row = Some selected ->
  selected <> ".." ->
  fs_stat fs (currentDir st ++ "/" ++ selected) = Some fileStat ->
  S_ISDIR (st_mode fileStat) = true ->
  main_enter fs LINES st =
  Some {| nav := {| currentDir := currentDir st ++ "/" ++ selected;
                    contents := getDirectoryContents fs (currentDir st ++ "/" ++ selected);
                    choice := 0;
                    backStack := currentDir st :: backStack st;
                    forwardStack := [] |};
          ctl := AtMain |}.
Proof.
  intros Hrow Hsel Hne Hstat Hdir.
  rewrite (main_enter_resolved st row selected Hrow Hsel), Hstat, Hdir.
  apply String.eqb_neq in Hne. rewrite Hne. reflexivity.
Qed.

(** Enter on [..] where the current path has a separator. *)
Lemma main_enter_parent (st : NavState) (row : string) (fileStat : stat_t) (i : nat) :
  vec_at (contents st) (choice st) = Some row ->
  selected_of row = Some ".." ->
  fs_stat fs (currentDir st ++ "/..") = Some fileStat ->
  S_ISDIR (st_mode fileStat) = true ->
  fits (currentDir st) ->
  last_index "/" (currentDir st) = Some i ->
  main_enter fs LINES st =
  Some {| nav := {| currentDir := take i (currentDir st);
                    contents := getDirectoryContents fs (take i (currentDir st));
                    choice := 0;
                    backStack := currentDir st :: backStack st;
                    forwardStack := [] |};
          ctl := AtMain |}.
Proof.
  intros Hrow Hsel Hstat Hdir Hfits Hi.
  rewrite (main_enter_resolved st row ".." Hrow Hsel).
  change (currentDir st ++ "/" ++ "..") with (currentDir st ++ "/..").
  rewrite Hstat, Hdir. simpl String.eqb. cbv iota.
  assert (Hlt := last_index_lt _ _ _ Hi).
  unfold find_last_of. rewrite Hi.
  unfold fits, size in Hfits.
  destruct (Z.eqb_spec (Z.of_nat i) npos) as [Heq|_]; [lia|].
  simpl negb. cbv iota.
  rewrite substr_prefix by lia. reflexivity.
Qed.

(** Enter on [..] where the current path has no separator. *)
Lemma main_enter_parent_none (st : NavState) (row : string) (fileStat : stat_t) :
  vec_at (contents st) (choice st) = Some row ->
  selected_of row = Some ".." ->
  fs_stat fs (currentDir st ++ "/..") = Some fileStat ->
  S_ISDIR (st_mode fileStat) = true ->
  last_index "/" (currentDir st) = None ->
  main_enter fs LINES st =
  Some {| nav := {| currentDir := currentDir st;
                    contents := getDirectoryContents fs (currentDir st);
                    choice := 0;
                    backStack := backStack st;
                    forwardStack := forwardStack st |};
          ctl := AtMain |}.
Proof.
  intros Hrow Hsel Hstat Hdir Hi.
  rewrite (main_enter_resolved st row ".." Hrow Hsel).
  change (currentDir st ++ "/" ++ "..") with (currentDir st ++ "/..").
  rewrite Hstat, Hdir. simpl String.eqb. cbv iota.
  unfold find_last_of. rewrite Hi. reflexivity.
Qed.

(** C6: when Enter is pressed and [stat] of the resolved path fails, the
    path, the listing, the cursor and both history stacks are left as
    they were, and the program waits for the next key in [main]. *)
Theorem enter_stat_failure_changes_nothing
    (st : NavState) (row selected : string) :
  vec_at (contents st) (choice st) = Some row ->
  selected_of row = Some selected ->
  fs_stat fs (currentDir st ++ "/" ++ selected) = None ->
  step fs LINES 10 {| nav := st; ctl := AtMain |} = Some {| nav := st; ctl := AtMain |}.
Proof.
  intros Hrow Hsel Hstat.
  change (main_enter fs LINES st = Some {| nav := st; ctl := AtMain |}).
  rewrite (main_enter_resolved st row selected Hrow Hsel), Hstat. reflexivity.
Qed.

End Enter.

Lemma enter_stat_failure_witness :
  step Demo.demo_fs Demo.demo_LINES 10 {| nav := Demo.at_a 4; ctl := AtMain |}
    = Some {| nav := Demo.at_a 4; ctl := AtMain |}.
Proof.
  apply (enter_stat_failure_changes_nothing Demo.demo_fs Demo.demo_LINES (Demo.at_a 4)
           "-rw-r--r-- 12 Oct 30 04:21 my file" "file"); reflexivity.
Defined.

(** ** The history stacks *)
Section History.

Variable fs : FileSystem.
Variable LINES : Z.

Local Open Scope string_scope.
Local Open Scope Z_scope.

Lemma main_key_enter (st : NavState) :
  main_key fs LINES 10 st = main_enter fs LINES st.
Proof. reflexivity. Qed.

Lemma main_key_left (st : NavState) :
  main_key fs LINES KEY_LEFT st = Some {| nav := main_left fs st; ctl := AtMain |}.
Proof. reflexivity. Qed.

Lemma main_key_right (st : NavState) :
  main_key fs LINES KEY_RIGHT st = Some {| nav := main_right fs st; ctl := AtMain |}.
Proof. reflexivity. Qed.

(** C7, amended: Enter on a directory row named [..] truncates the
    current path at its last separator, pushes the old path onto the back
    stack, clears the forward stack, reloads the listing and resets the
    cursor to 0; when the current path has no separator, the path and both
    stacks are kept, but the listing is still reloaded and the cursor is
    still reset to 0. *)
Theorem enter_parent_directory (st : NavState) (row : string) (fileStat : stat_t) :
  vec_at (contents st) (choice st) = Some row ->
  selected_of row = Some ".." ->
  fs_stat fs (currentDir st ++ "/..") = Some fileStat ->
  S_ISDIR (st_mode fileStat) = true ->
  fits (currentDir st) ->
  exists st' : NavState,
    step fs LINES 10 {| nav := st; ctl := AtMain |} = Some {| nav := st'; ctl := AtMain |} /\
    contents st' = getDirectoryContents fs (currentDir st') /\
    choice st' = 0 /\
    (find_last_of (currentDir st) "/" <> npos ->
       currentDir st' = take (Z.to_nat (find_last_of (currentDir st) "/")) (currentDir st) /\
       (exists rest : string,
          currentDir st = currentDir st' ++ String "/" rest /\ last_index "/" rest = None) /\
       backStack st' = currentDir st :: backStack st /\
       forwardStack st' = []) /\
    (find_last_of (currentDir st) "/" = npos ->
       currentDir st' = currentDir st /\
       backStack st' = backStack st /\
       forwardStack st' = forwardStack st).
Proof.
  intros Hrow Hsel Hstat Hdir Hfits.
  rewrite step_at_main, main_key_enter.
  destruct (last_index "/" (currentDir st)) as [i|] eqn:Hi.
  - rewrite (main_enter_parent fs LINES st row fileStat i Hrow Hsel Hstat Hdir Hfits Hi).
    eexists. split; [reflexivity|]. cbn [contents currentDir choice backStack forwardStack].
    split; [reflexivity|]. split; [reflexivity|].
    unfold find_last_of. rewrite Hi. rewrite Nat2Z.id. split.
    + intros _. split; [reflexivity|]. split; [|split; reflexivity].
      exists (drop (S i) (currentDir st)). apply last_index_split. exact Hi.
    + intros Heq. assert (Hlt := last_index_lt _ _ _ Hi).
      unfold fits, size in Hfits. lia.
  - rewrite (main_enter_parent_none fs LINES st row fileStat Hrow Hsel Hstat Hdir Hi).
    eexists. split; [reflexivity|]. cbn [contents currentDir choice backStack forwardStack].
    split; [reflexivity|]. split; [reflexivity|].
    unfold find_last_of. rewrite Hi. split.
    + intros Hne. contradiction Hne. reflexivity.
    + intros _. repeat split.
Qed.

(** C2, amended: Enter on a directory row (any name but [..], or [..]
    when the current path has a separator) pushes the old path onto the
    back stack and leaves the forward stack empty; Left with a back stack
    that is not empty does not clear the forward stack: it pushes the path
    being left onto it. *)
Theorem forward_history_after_moves
    (st : NavState) (row selected : string) (fileStat : stat_t)
    (st2 : NavState) (top : string) (rest : list string) :
  vec_at (contents st) (choice st) = Some row ->
  selected_of row = Some selected ->
  fs_stat fs (currentDir st ++ "/" ++ selected) = Some fileStat ->
  S_ISDIR (st_mode fileStat) = true ->
  fits (currentDir st) ->
  selected <> ".." \/ find_last_of (currentDir st) "/" <> npos ->
  backStack st2 = top :: rest ->
  (exists st' : NavState,
     step fs LINES 10 {| nav := st; ctl := AtMain |} = Some {| nav := st'; ctl := AtMain |} /\
     backStack st' = currentDir st :: backStack st /\
     forwardStack st' = []) /\
  (exists st2' : NavState,
     step fs LINES KEY_LEFT {| nav := st2; ctl := AtMain |}
       = Some {| nav := st2'; ctl := AtMain |} /\
     currentDir st2' = top /\
     backStack st2' = rest /\
     forwardStack st2' = currentDir st2 :: forwardStack st2).
Proof.
  intros Hrow Hsel Hstat Hdir Hfits Hmove Hback. split.
  - destruct (string_dec selected "..") as [->|Hne].
    + destruct Hmove as [Hne|Hsep]; [contradiction Hne; reflexivity|].
      destruct (enter_parent_directory st row fileStat Hrow Hsel Hstat Hdir Hfits)
        as (st' & Hstep & _ & _ & Hyes & _).
      destruct (Hyes Hsep) as (_ & _ & Hb & Hf).
      exists st'. auto.
    + rewrite step_at_main, main_key_enter.
      rewrite (main_enter_directory fs LINES st row selected fileStat Hrow Hsel Hne Hstat Hdir).
      eexists. split; [reflexivity|]. split; reflexivity.
  - rewrite step_at_main, main_key_left. unfold main_left. rewrite Hback.
    eexists. split; [reflexivity|]. repeat split.
Qed.

(** C4: from a directory A, Enter on the row of a subdirectory B other
    than [..] and then Left gives the path A again with A/B on top of the
    forward stack, and Right after that gives A/B again; and from any
    state whose back stack holds at least two paths, Left, Left, Right,
    Right gives back the path and both stacks. *)
Theorem history_symmetry
    (st : NavState) (row B : string) (fileStat : stat_t)
    (st2 : NavState) (b1 b2 : string) (older : list string) :
  vec_at (contents st) (choice st) = Some row ->
  selected_of row = Some B ->
  B <> ".." ->
  fs_stat fs (currentDir st ++ "/" ++ B) = Some fileStat ->
  S_ISDIR (st_mode fileStat) = true ->
  backStack st2 = b1 :: b2 :: older ->
  let A := currentDir st in
  let start := {| nav := st; ctl := AtMain |} in
  (exists st' : NavState,
     run fs LINES [10; KEY_LEFT] start = Some {| nav := st'; ctl := AtMain |} /\
     currentDir st' = A /\
     backStack st' = backStack st /\
     hd_error (forwardStack st') = Some (A ++ "/" ++ B)) /\
  (exists st' : NavState,
     run fs LINES [10; KEY_LEFT; KEY_RIGHT] start = Some {| nav := st'; ctl := AtMain |} /\
     currentDir st' = A ++ "/" ++ B /\
     backStack st' = A :: backStack st /\
     forwardStack st' = []) /\
  (exists st2' : NavState,
     run fs LINES [KEY_LEFT; KEY_LEFT; KEY_RIGHT; KEY_RIGHT] {| nav := st2; ctl := AtMain |}
       = Some {| nav := st2'; ctl := AtMain |} /\
     currentDir st2' = currentDir st2 /\
     backStack st2' = backStack st2 /\
     forwardStack st2' = forwardStack st2).
Proof.
  intros Hrow Hsel Hne Hstat Hdir Hback A start.
  assert (Henter := main_enter_directory fs LINES st row B fileStat Hrow Hsel Hne Hstat Hdir).
  subst A start. split; [|split].
  - rewrite run_cons, step_at_main, main_key_enter, Henter.
    rewrite run_cons, step_at_main, main_key_left.
    eexists. split; [reflexivity|]. repeat split.
  - rewrite run_cons, step_at_main, main_key_enter, Henter.
    rewrite run_cons, step_at_main, main_key_left.
    rewrite run_cons, step_at_main, main_key_right.
    eexists. split; [reflexivity|]. repeat split.
  - rewrite run_cons, step_at_main, main_key_left.
    unfold main_left at 1. rewrite Hback.
    rewrite run_cons, step_at_main, main_key_left.
    rewrite run_cons, step_at_main, main_key_right.
    rewrite run_cons, step_at_main, main_key_right.
    eexists. split; [reflexivity|]. cbn. repeat split.
Qed.

(** C10: when the only separator of the current path is its leading [/],
    Enter on a directory row named [..] sets the current path to the
    empty string, not to [/], and pushes the old path onto the back stack;
    the listing of the empty path, which cannot be opened, is empty; Left
    then leads back to the old path. *)
Theorem enter_parent_of_top_level_directory
    (st : NavState) (name row : string) (fileStat : stat_t) :
  currentDir st = String "/" name ->
  last_index "/" name = None ->
  vec_at (contents st) (choice st) = Some row ->
  selected_of row = Some ".." ->
  fs_stat fs (currentDir st ++ "/..") = Some fileStat ->
  S_ISDIR (st_mode fileStat) = true ->
  fs_readdir fs "" = None ->
  let emptied := {| currentDir := "";
                    contents := [];
                    choice := 0;
                    backStack := currentDir st :: backStack st;
                    forwardStack := [] |} in
  step fs LINES 10 {| nav := st; ctl := AtMain |} = Some {| nav := emptied; ctl := AtMain |} /\
  currentDir emptied <> "/" /\
  step fs LINES KEY_LEFT {| nav := emptied; ctl := AtMain |}
    = Some {| nav := {| currentDir := currentDir st;
                        contents := getDirectoryContents fs (currentDir st);
                        choice := 0;
                        backStack := backStack st;
                        forwardStack := [""] |};
              ctl := AtMain |}.
Proof.
  intros Hcur Hname Hrow Hsel Hstat Hdir Hroot emptied. subst emptied.
  split; [|split].
  - rewrite step_at_main, main_key_enter.
    rewrite (main_enter_resolved fs LINES st row ".." Hrow Hsel).
    change (currentDir st ++ "/" ++ "..") with (currentDir st ++ "/..").
    rewrite Hstat, Hdir. simpl String.eqb. cbv iota.
    assert (Hlast : find_last_of (currentDir st) "/" = 0).
    { rewrite Hcur. unfold find_last_of. simpl. rewrite Hname. reflexivity. }
    rewrite Hlast. simpl negb. cbv iota.
    assert (Hsub : substr (currentDir st) 0 0 = Some "").
    { unfold substr, size.
      destruct (Z.ltb_spec (Z.of_nat (String.length (currentDir st))) 0); [lia|].
      rewrite Z.min_l by lia. reflexivity. }
    rewrite Hsub.
    assert (Hlist : getDirectoryContents fs "" = []).
    { unfold getDirectoryContents. rewrite Hroot. reflexivity. }
    rewrite Hlist. reflexivity.
  - simpl. discriminate.
  - reflexivity.
Qed.

End History.

(** C7 as stated fails: at the relative path [work], which has no
    separator, Enter on the row of [..] is not a no-op: the cursor moves
    from 1 to 0. *)
Lemma enter_parent_without_separator_moves_cursor :
  find_last_of (currentDir (Demo.at_work 1)) "/" = npos /\
  vec_at (contents (Demo.at_work 1)) (choice (Demo.at_work 1))
    = Some "drwxr-xr-x 4096 Oct 30 04:21 .."%string /\
  selected_of "drwxr-xr-x 4096 Oct 30 04:21 .." = Some ".."%string /\
  step Demo.demo_fs Demo.demo_LINES 10 {| nav := Demo.at_work 1; ctl := AtMain |}
    = Some {| nav := Demo.at_work 0; ctl := AtMain |} /\
  Demo.at_work 0 <> Demo.at_work 1.
Proof.
  repeat split; try reflexivity.
  intros Heq. apply (f_equal choice) in Heq. discriminate Heq.
Qed.

Lemma enter_parent_directory_witness :
  exists st' : NavState,
    step Demo.demo_fs Demo.demo_LINES 10 {| nav := Demo.at_b 1; ctl := AtMain |}
      = Some {| nav := st'; ctl := AtMain |} /\
    currentDir st' = "/a"%string /\
    backStack st' = ["/a/b"; "/a"]%string /\
    forwardStack st' = [] /\
    choice st' = 0.
Proof.
  destruct (enter_parent_directory Demo.demo_fs Demo.demo_LINES (Demo.at_b 1)
              "drwxr-xr-x 4096 Oct 30 04:21 .." Demo.dir_stat)
    as (st' & Hstep & _ & Hchoice & Hsep & _); try reflexivity.
  destruct Hsep as (Hcur & _ & Hback & Hfwd); [discriminate|].
  exists st'. repeat split; assumption.
Defined.

(** C2 as stated fails: after Enter on [b] in [/a], Left leaves the
    forward stack holding [/a/b]. *)
Lemma left_does_not_clear_forward_history :
  exists m : Machine,
    run Demo.demo_fs Demo.demo_LINES [KEY_DOWN; KEY_DOWN; 10; KEY_LEFT]
        (main_init Demo.demo_fs "/a") = Some m /\
    currentDir (nav m) = "/a"%string /\
    forwardStack (nav m) = ["/a/b"%string] /\
    forwardStack (nav m) <> [].
Proof.
  eexists. split; [reflexivity|]. repeat split. discriminate.
Qed.

Lemma forward_history_after_moves_witness :
  (exists st' : NavState,
     step Demo.demo_fs Demo.demo_LINES 10 {| nav := Demo.at_c_with_history; ctl := AtMain |}
       = Some {| nav := st'; ctl := AtMain |} /\
     backStack st' = currentDir Demo.at_c_with_history :: backStack Demo.at_c_with_history /\
     forwardStack st' = []) /\
  (exists st2' : NavState,
     step Demo.demo_fs Demo.demo_LINES KEY_LEFT {| nav := Demo.at_b 0; ctl := AtMain |}
       = Some {| nav := st2'; ctl := AtMain |} /\
     currentDir st2' = "/a"%string /\
     backStack st2' = [] /\
     forwardStack st2' = currentDir (Demo.at_b 0) :: forwardStack (Demo.at_b 0)).
Proof.
  apply (forward_history_after_moves Demo.demo_fs Demo.demo_LINES Demo.at_c_with_history
           "drwxr-xr-x 4096 Oct 30 04:21 ." "." Demo.dir_stat (Demo.at_b 0) "/a" []);
    try reflexivity.
  left. discriminate.
Defined.

(** Where only one back move is possible, the second Left does nothing
    and the second Right moves on: after Enter on [b], Enter on [c] and
    Left the path is [/a/b]; Left, Left, Right, Right then end in
    [/a/b/c]. *)
Remark second_left_without_history_is_not_undone :
  exists m m' : Machine,
    run Demo.demo_fs Demo.demo_LINES
        [KEY_DOWN; KEY_DOWN; 10; KEY_DOWN; KEY_DOWN; 10; KEY_LEFT]
        (main_init Demo.demo_fs "/a") = Some m /\
    currentDir (nav m) = "/a/b"%string /\
    backStack (nav m) = ["/a"%string] /\
    run Demo.demo_fs Demo.demo_LINES [KEY_LEFT; KEY_LEFT; KEY_RIGHT; KEY_RIGHT] m = Some m' /\
    currentDir (nav m') = "/a/b/c"%string.
Proof.
  do 2 eexists. split; [reflexivity|]. repeat split.
Qed.

Lemma history_symmetry_witness :
  (exists st' : NavState,
     run Demo.demo_fs Demo.demo_LINES [10; KEY_LEFT] {| nav := Demo.at_a 2; ctl := AtMain |}
       = Some {| nav := st'; ctl := AtMain |} /\
     currentDir st' = "/a"%string /\
     backStack st' = [] /\
     hd_error (forwardStack st') = Some "/a/b"%string) /\
  (exists st' : NavState,
     run Demo.demo_fs Demo.demo_LINES [10; KEY_LEFT; KEY_RIGHT]
         {| nav := Demo.at_a 2; ctl := AtMain |}
       = Some {| nav := st'; ctl := AtMain |} /\
     currentDir st' = "/a/b"%string /\
     backStack st' = ["/a"%string] /\
     forwardStack st' = []) /\
  (exists st2' : NavState,
     run Demo.demo_fs Demo.demo_LINES [KEY_LEFT; KEY_LEFT; KEY_RIGHT; KEY_RIGHT]
         {| nav := Demo.at_c_with_history; ctl := AtMain |}
       = Some {| nav := st2'; ctl := AtMain |} /\
     currentDir st2' = "/a/b/c"%string /\
     backStack st2' = ["/a/b"; "/a"]%string /\
     forwardStack st2' = ["/a/b/c/d"%string]).
Proof.
  apply (history_symmetry Demo.demo_fs Demo.demo_LINES (Demo.at_a 2)
           "drwxr-xr-x 4096 Oct 30 04:21 b" "b" Demo.dir_stat
           Demo.at_c_with_history "/a/b" "/a" []);
    try reflexivity.
  discriminate.
Defined.

Lemma enter_parent_of_top_level_directory_witness :
  step Demo.demo_fs Demo.demo_LINES 10 {| nav := Demo.at_a 1; ctl := AtMain |}
    = Some {| nav := {| currentDir := ""; contents := []; choice := 0;
                        backStack := ["/a"%string]; forwardStack := [] |};
              ctl := AtMain |} /\
  ""%string <> "/"%string /\
  step Demo.demo_fs Demo.demo_LINES KEY_LEFT
       {| nav := {| currentDir := ""; contents := []; choice := 0;
                    backStack := ["/a"%string]; forwardStack := [] |};
          ctl := AtMain |}
    = Some {| nav := {| currentDir := "/a";
                        contents := getDirectoryContents Demo.demo_fs "/a";
                        choice := 0;
                        backStack := [];
                        forwardStack := [""%string] |};
              ctl := AtMain |}.
Proof.
  apply (enter_parent_of_top_level_directory Demo.demo_fs Demo.demo_LINES (Demo.at_a 1)
           "a" "drwxr-xr-x 4096 Oct 30 04:21 .." Demo.dir_stat);
    reflexivity.
Defined.

(** ** The pager *)
Section Pager.

Variable fs : FileSystem.
Variable LINES : Z.

Lemma pager_run_cons (ch : Z) (keys : list Z) (p q : PagerState) :
  pager_key ch p = AtPager q ->
  pager_run (ch :: keys) p = pager_run keys q.
Proof.
  intros Hkey. unfold pager_run. simpl. rewrite Hkey. reflexivity.
Qed.

(** The pager opens on line 0 with the window at the top. *)
Lemma pager_open_bounded (path : string) (p0 : PagerState) :
  displayFileContent_open fs LINES path = AtPager p0 ->
  1 <= LINES - 2 ->
  LINES + Z.of_nat (List.length (lines p0)) < 2 ^ 31 ->
  scroll_invariant p0 /\ pager_bounded p0.
Proof.
  unfold displayFileContent_open.
  destruct (negb (isReadable fs path)); [discriminate|].
  destruct (fs_lines fs path) as [ls|]; [|discriminate].
  intros Hopen Hrows Hsize. injection Hopen as <-.
  unfold scroll_invariant, pager_bounded; simpl in *.
  assert (H31 : 2 ^ 31 = 2147483648) by reflexivity.
  rewrite !int_wrap_small by lia. lia.
Qed.

(** One Up or Down in the pager. *)
Lemma pager_scroll_step (p : PagerState) (ch : Z) :
  is_up_down ch ->
  scroll_invariant p ->
  pager_bounded p ->
  exists p' : PagerState,
    pager_key ch p = AtPager p' /\
    scroll_invariant p' /\
    pager_bounded p' /\
    currentLine p' = clamp (currentLine p + key_delta ch) 0 (Z.of_nat (List.length (lines p)) - 1) /\
    Z.abs (currentLine p' - currentLine p) <= 1 /\
    Z.abs (topLine p' - topLine p) <= 1 /\
    lines p' = lines p /\
    visibleRows p' = visibleRows p.
Proof.
  intros Hch [Hlo Hhi] (Htop & Hcur & Htotal & Hrows & Hsum).
  assert (H31 : 2 ^ 31 = 2147483648) by reflexivity.
  rewrite <- Htotal.
  destruct Hch as [-> | ->].
  - exists (pager_up p). split; [reflexivity|].
    unfold scroll_invariant, pager_bounded, pager_up, clamp, key_delta; simpl.
    destruct (Z.ltb_spec 0 (currentLine p)) as [Hpos|Hzero].
    + rewrite (int_wrap_small (currentLine p - 1)) by lia.
      destruct (Z.ltb_spec (currentLine p - 1) (topLine p)) as [Hadj|Hkeep].
      * rewrite int_wrap_small by lia. repeat split; try assumption; lia.
      * repeat split; try assumption; lia.
    + destruct (Z.ltb_spec (currentLine p) (topLine p)) as [Hadj|Hkeep]; [lia|].
      repeat split; try assumption; lia.
  - exists (pager_down p). split; [reflexivity|].
    unfold scroll_invariant, pager_bounded, pager_down, clamp, key_delta; simpl.
    rewrite (int_wrap_small (totalLines p - 1)) by lia.
    rewrite (int_wrap_small (topLine p + visibleRows p)) by lia.
    destruct (Z.ltb_spec (currentLine p) (totalLines p - 1)) as [Hmore|Hlast].
    + rewrite (int_wrap_small (currentLine p + 1)) by lia.
      destruct (Z.leb_spec (topLine p + visibleRows p) (currentLine p + 1)) as [Hadj|Hkeep].
      * rewrite int_wrap_small by lia. repeat split; try assumption; lia.
      * repeat split; try assumption; lia.
    + destruct (Z.leb_spec (topLine p + visibleRows p) (currentLine p)) as [Hadj|Hkeep]; [lia|].
      repeat split; try assumption; lia.
Qed.

(** Any sequence of Up and Down in the pager. *)
Lemma pager_scroll_run (keys : list Z) (p : PagerState) :
  Forall is_up_down keys ->
  scroll_invariant p ->
  pager_bounded p ->
  exists p' : PagerState,
    pager_run keys p = AtPager p' /\
    scroll_invariant p' /\
    pager_bounded p' /\
    lines p' = lines p /\
    visibleRows p' = visibleRows p.
Proof.
  intros Hkeys. revert p. induction Hkeys as [|ch keys Hch _ IH]; intros p Hinv Hbound.
  - exists p. split; [reflexivity|]. auto.
  - destruct (pager_scroll_step p ch Hch Hinv Hbound)
      as (q & Hkey & Hinvq & Hboundq & _ & _ & _ & Hlines & Hrows).
    destruct (IH q Hinvq Hboundq) as (p' & Hrun & Hinv' & Hbound' & Hlines' & Hrows').
    exists p'. rewrite (pager_run_cons ch keys p q Hkey).
    split; [exact Hrun|]. split; [exact Hinv'|]. split; [exact Hbound'|].
    split; congruence.
Qed.

(** C5: in the pager opened on any file, with at least one visible row,
    the scroll invariant holds after every sequence of Up and Down; each
    further Up or Down moves the current line by at most one, clamped to
    the lines of the file, and the top line by at most one, and keeps the
    invariant. *)
Theorem pager_scroll_invariant (path : string) (p0 : PagerState) (keys : list Z) :
  displayFileContent_open fs LINES path = AtPager p0 ->
  1 <= LINES - 2 ->
  LINES + Z.of_nat (List.length (lines p0)) < 2 ^ 31 ->
  Forall is_up_down keys ->
  visibleRows p0 = LINES - 2 /\
  exists p : PagerState,
    pager_run keys p0 = AtPager p /\
    scroll_invariant p /\
    visibleRows p = visibleRows p0 /\
    lines p = lines p0 /\
    forall ch : Z, is_up_down ch ->
      exists p' : PagerState,
        pager_key ch p = AtPager p' /\
        scroll_invariant p' /\
        currentLine p' = clamp (currentLine p + key_delta ch) 0
                               (Z.of_nat (List.length (lines p)) - 1) /\
        Z.abs (currentLine p' - currentLine p) <= 1 /\
        Z.abs (topLine p' - topLine p) <= 1.
Proof.
  intros Hopen Hrows Hsize Hkeys.
  destruct (pager_open_bounded path p0 Hopen Hrows Hsize) as [Hinv0 Hbound0].
  split.
  - unfold displayFileContent_open in Hopen.
    destruct (negb (isReadable fs path)); [discriminate|].
    destruct (fs_lines fs path) as [ls|]; [|discriminate].
    injection Hopen as <-. simpl.
    assert (H31 : 2 ^ 31 = 2147483648) by reflexivity.
    apply int_wrap_small. lia.
  - destruct (pager_scroll_run keys p0 Hkeys Hinv0 Hbound0)
      as (p & Hrun & Hinv & Hbound & Hlines & Hvis).
    exists p. split; [exact Hrun|]. split; [exact Hinv|].
    split; [exact Hvis|]. split; [exact Hlines|].
    intros ch Hch.
    destruct (pager_scroll_step p ch Hch Hinv Hbound)
      as (p' & Hkey & Hinv' & _ & Hcur & Hdc & Hdt & _).
    exists p'. auto.
Qed.

(** Keys other than Escape keep the program in the pager and leave the
    locals of [main] alone. *)
Lemma run_in_pager (keys : list Z) (st : NavState) (p : PagerState) :
  Forall (fun ch => ch <> 27) keys ->
  exists p' : PagerState,
    run fs LINES keys {| nav := st; ctl := AtPager p |}
      = Some {| nav := st; ctl := AtPager p' |}.
Proof.
  intros Hkeys. revert p. induction Hkeys as [|ch keys Hch _ IH]; intros p.
  - exists p. reflexivity.
  - rewrite run_cons, step_at_pager.
    assert (Hkey : exists q, pager_key ch p = AtPager q).
    { unfold pager_key.
      destruct (ch =? KEY_UP); [eexists; reflexivity|].
      destruct (ch =? KEY_DOWN); [eexists; reflexivity|].
      destruct (Z.eqb_spec ch 27) as [Heq|_]; [contradiction|].
      eexists; reflexivity. }
    destruct Hkey as [q ->]. apply IH.
Qed.

(** C9: Escape in the pager leads to the last [getch()] of
    [displayFileContent]; the one key read there, whatever it is, returns
    control to the loop of [main] with its locals as they were, and the
    keys after it are handled by [main]. *)
Theorem key_after_escape_is_discarded
    (st : NavState) (p : PagerState) (ch : Z) (keys : list Z) :
  step fs LINES 27 {| nav := st; ctl := AtPager p |} = Some {| nav := st; ctl := AtReturn |} /\
  step fs LINES ch {| nav := st; ctl := AtReturn |} = Some {| nav := st; ctl := AtMain |} /\
  run fs LINES (27 :: ch :: keys) {| nav := st; ctl := AtPager p |}
    = run fs LINES keys {| nav := st; ctl := AtMain |}.
Proof.
  split; [reflexivity|]. split; reflexivity.
Qed.

(** C8: Enter on a readable regular file, then any keys of the pager,
    then Escape (and the key that follows it) leave the path, the
    listing, the cursor and both history stacks as they were before. *)
Theorem paging_session_keeps_navigation_state
    (st : NavState) (row selected : string) (fileStat : stat_t)
    (ls : list string) (keys : list Z) :
  vec_at (contents st) (choice st) = Some row ->
  selected_of row = Some selected ->
  fs_stat fs (currentDir st ++ "/" ++ selected) = Some fileStat ->
  S_ISDIR (st_mode fileStat) = false ->
  S_ISREG (st_mode fileStat) = true ->
  fs_lines fs (currentDir st ++ "/" ++ selected) = Some ls ->
  Forall (fun ch => ch <> 27) keys ->
  (exists p : PagerState,
     run fs LINES (10 :: keys) {| nav := st; ctl := AtMain |}
       = Some {| nav := st; ctl := AtPager p |}) /\
  run fs LINES (10 :: keys ++ [27]) {| nav := st; ctl := AtMain |}
    = Some {| nav := st; ctl := AtReturn |} /\
  forall ch : Z,
    run fs LINES (10 :: keys ++ [27; ch]) {| nav := st; ctl := AtMain |}
      = Some {| nav := st; ctl := AtMain |}.
Proof.
  intros Hrow Hsel Hstat Hdir Hreg Hlines Hkeys.
  assert (Henter : exists p0, step fs LINES 10 {| nav := st; ctl := AtMain |}
                     = Some {| nav := st; ctl := AtPager p0 |}).
  { change (step fs LINES 10 {| nav := st; ctl := AtMain |}) with (main_enter fs LINES st).
    rewrite (main_enter_resolved fs LINES st row selected Hrow Hsel), Hstat, Hdir, Hreg.
    unfold displayFileContent_open, isReadable. rewrite Hlines. simpl.
    eexists. reflexivity. }
  destruct Henter as [p0 Henter].
  destruct (run_in_pager keys st p0 Hkeys) as [p Hrun].
  split; [|split].
  - exists p. rewrite run_cons, Henter. exact Hrun.
  - rewrite run_cons, Henter, run_app, Hrun. reflexivity.
  - intros ch. rewrite run_cons, Henter, run_app, Hrun. reflexivity.
Qed.

End Pager.

Lemma pager_scroll_invariant_witness :
  exists p : PagerState,
    pager_run [KEY_DOWN; KEY_DOWN; KEY_DOWN; KEY_DOWN; KEY_UP]
      {| filePath := "/a/f.txt"; lines := ["one"; "two"; "three"; "four"]%string;
         totalLines := 4; visibleRows := 1; topLine := 0; currentLine := 0 |}
      = AtPager p /\
    scroll_invariant p.
Proof.
  destruct (pager_scroll_invariant Demo.demo_fs 3 "/a/f.txt"
              {| filePath := "/a/f.txt"; lines := ["one"; "two"; "three"; "four"]%string;
                 totalLines := 4; visibleRows := 1; topLine := 0; currentLine := 0 |}
              [KEY_DOWN; KEY_DOWN; KEY_DOWN; KEY_DOWN; KEY_UP])
    as (_ & p & Hrun & Hinv & _).
  - reflexivity.
  - vm_compute. discriminate.
  - vm_compute. reflexivity.
  - repeat constructor; (left; reflexivity) || (right; reflexivity).
  - exists p. split; assumption.
Defined.

Lemma paging_session_witness :
  (exists p : PagerState,
     run Demo.demo_fs Demo.demo_LINES [10; KEY_DOWN; KEY_DOWN; 65; KEY_UP]
         {| nav := Demo.at_a 3; ctl := AtMain |}
       = Some {| nav := Demo.at_a 3; ctl := AtPager p |}) /\
  run Demo.demo_fs Demo.demo_LINES ([10; KEY_DOWN; KEY_DOWN; 65; KEY_UP] ++ [27])
      {| nav := Demo.at_a 3; ctl := AtMain |}
    = Some {| nav := Demo.at_a 3; ctl := AtReturn |} /\
  forall ch : Z,
    run Demo.demo_fs Demo.demo_LINES ([10; KEY_DOWN; KEY_DOWN; 65; KEY_UP] ++ [27; ch])
        {| nav := Demo.at_a 3; ctl := AtMain |}
      = Some {| nav := Demo.at_a 3; ctl := AtMain |}.
Proof.
  apply (paging_session_keeps_navigation_state Demo.demo_fs Demo.demo_LINES (Demo.at_a 3)
           "-rw-r--r-- 12 Oct 30 04:21 f.txt" "f.txt" Demo.file_stat
           ["one"; "two"; "three"; "four"]%string [KEY_DOWN; KEY_DOWN; 65; KEY_UP]);
    try reflexivity.
  repeat constructor; discriminate.
Defined.

(** ** More on the listing provider *)
Section ListingMore.

Local Open Scope string_scope.
Local Open Scope Z_scope.



Lemma last_index_append (c : ascii) (front back : string) :
  last_index c (front ++ back) =
  match last_index c back with
  | Some j => Some (String.length front + j)%nat
  | None => last_index c front
  end.
Proof.
  induction front as [|a front IH]; simpl.
  - destruct (last_index c back); reflexivity.
  - rewrite IH. destruct (last_index c back); reflexivity.
Qed.

Lemma drop_append (n : nat) (front back : string) :
  drop (String.length front + n) (front ++ back) = drop n back.
Proof. induction front as [|a front IH]; simpl; [reflexivity | exact IH]. Qed.

Lemma take_append (front back : string) :
  take (String.length front) (front ++ back) = front.
Proof.
  induction front as [|a front IH]; simpl; [destruct back; reflexivity|].
  rewrite IH. reflexivity.
Qed.

(** What [main] cuts out of any row: the part after its last space, or
    the whole row when it has no space. *)
Lemma selected_of_cases (row : string) :
  fits row ->
  selected_of row =
  Some match last_index " " row with
       | Some i => drop (S i) row
       | None => row
       end.
Proof.
  intros Hfits. unfold fits, size in Hfits.
  assert (Hnpos : npos = 2 ^ 64 - 1) by reflexivity.
  unfold selected_of, find_last_of.
  destruct (last_index " " row) as [i|] eqn:Hi.
  - assert (Hlt := last_index_lt _ _ _ Hi).
    rewrite size_wrap_small by lia.
    unfold substr, size.
    destruct (Z.ltb_spec (Z.of_nat (String.length row)) (Z.of_nat i + 1)) as [Hbad|_]; [lia|].
    replace (Z.to_nat (Z.of_nat i + 1)) with (S i) by lia.
    rewrite take_all; [reflexivity|]. rewrite length_drop. lia.
  - replace (size_wrap (npos + 1)) with 0 by reflexivity.
    unfold substr, size.
    destruct (Z.ltb_spec (Z.of_nat (String.length row)) 0) as [Hbad|_]; [lia|].
    simpl drop. rewrite take_all; [reflexivity|]. lia.
Qed.

(** The permission column has ten characters, none of them a space. *)
Theorem formatPermissions_shape (mode : Z) :
  String.length (formatPermissions mode) = 10%nat /\
  last_index " " (formatPermissions mode) = None.
Proof.
  unfold formatPermissions.
  repeat match goal with
         | |- context [if ?b then _ else _] => destruct b
         end; split; reflexivity.
Qed.


End ListingMore.

(** ** Rows, names and Enter *)
Section RowsAndNames.

Variable fs : FileSystem.
Variable LINES : Z.

Local Open Scope string_scope.
Local Open Scope Z_scope.

Lemma getDirectoryContents_length_le (dirPath : string) (names : list string) :
  fs_readdir fs dirPath = Some names ->
  (List.length (getDirectoryContents fs dirPath) <= List.length names)%nat.
Proof.
  intros Hdir. unfold getDirectoryContents. rewrite Hdir. clear Hdir.
  induction names as [|fileName names IH]; cbn [flat_map List.length]; [lia|].
  rewrite length_app.
  destruct (fs_stat fs (dirPath ++ "/" ++ fileName)); cbn [List.length]; lia.
Qed.

(** A directory lists exactly the rows of the entries that [readdir]
    delivers and [stat] accepts: never more rows than entries, and as many
    when no [stat] fails. *)
Theorem listing_is_stat_successes (dirPath : string) (names : list string) :
  fs_readdir fs dirPath = Some names ->
  (List.length (getDirectoryContents fs dirPath) <= List.length names)%nat /\
  (forall row : string,
     In row (getDirectoryContents fs dirPath) <->
     exists (fileName : string) (fileStat : stat_t),
       In fileName names /\
       fs_stat fs (dirPath ++ "/" ++ fileName) = Some fileStat /\
       row = entry_row fileStat fileName) /\
  ((forall fileName : string,
      In fileName names -> fs_stat fs (dirPath ++ "/" ++ fileName) <> None) ->
   List.length (getDirectoryContents fs dirPath) = List.length names).
Proof.
  intros Hdir. split; [exact (getDirectoryContents_length_le dirPath names Hdir)|].
  split.
  - intros row. split.
    + intros Hin. apply getDirectoryContents_rows in Hin.
      destruct Hin as (names' & fileName & fileStat & Hdir' & Hname & Hstat & Hrow).
      rewrite Hdir in Hdir'. injection Hdir' as <-.
      exists fileName, fileStat. auto.
    + intros (fileName & fileStat & Hname & Hstat & ->).
      unfold getDirectoryContents. rewrite Hdir. apply in_flat_map.
      exists fileName. split; [exact Hname|]. rewrite Hstat. left. reflexivity.
  - unfold getDirectoryContents. rewrite Hdir. clear Hdir.
    induction names as [|fileName names IH]; intros Hall; cbn [flat_map List.length];
      [reflexivity|].
    rewrite length_app, IH by (intros n Hn; apply Hall; right; exact Hn).
    destruct (fs_stat fs (dirPath ++ "/" ++ fileName)) eqn:Hstat; [reflexivity|].
    exfalso. apply (Hall fileName); [left; reflexivity | exact Hstat].
Qed.

(** Whatever the row, the name [main] cuts out of it ends the row and
    holds no space; it is the whole row when the row has no space. *)
Theorem selected_name_has_no_space (row : string) :
  fits row ->
  exists name : string,
    selected_of row = Some name /\
    ends_with row name /\
    last_index " " name = None /\
    (last_index " " row = None -> name = row).
Proof.
  intros Hfits. rewrite (selected_of_cases row Hfits).
  destruct (last_index " " row) as [i|] eqn:Hi.
  - destruct (last_index_split _ _ _ Hi) as [Hsplit Hnone].
    exists (drop (S i) row). split; [reflexivity|]. split; [|split].
    + exists (take i row ++ " "). rewrite append_assoc. exact Hsplit.
    + exact Hnone.
    + intros Hbad. discriminate Hbad.
  - exists row. split; [reflexivity|]. split; [|split].
    + exists "". reflexivity.
    + exact Hi.
    + reflexivity.
Qed.

(** For an entry whose name holds a space, [main] cuts out only what
    follows the last space of the name, which is shorter than the name. *)
Theorem spaced_name_is_cut (fileStat : stat_t) (fileName : string) (j : nat) :
  fits (entry_row fileStat fileName) ->
  last_index " " fileName = Some j ->
  selected_of (entry_row fileStat fileName) = Some (drop (S j) fileName) /\
  (String.length (drop (S j) fileName) < String.length fileName)%nat /\
  selected_of (entry_row fileStat fileName) <> Some fileName.
Proof.
  intros Hfits Hj.
  assert (Hlt := last_index_lt _ _ _ Hj).
  assert (Hsel : selected_of (entry_row fileStat fileName) = Some (drop (S j) fileName)).
  { rewrite (selected_of_cases _ Hfits). rewrite entry_row_split.
    rewrite last_index_append. simpl last_index. rewrite Hj.
    f_equal.
    replace (S (String.length
                  (formatPermissions (st_mode fileStat) ++ " " ++ show_int (st_size fileStat)
                     ++ " " ++ st_mtime_text fileStat) + S j))
      with (String.length
              (formatPermissions (st_mode fileStat) ++ " " ++ show_int (st_size fileStat)
                 ++ " " ++ st_mtime_text fileStat) + S (S j))%nat by lia.
    rewrite drop_append. reflexivity. }
  assert (Hlen : (String.length (drop (S j) fileName) < String.length fileName)%nat)
    by (rewrite length_drop; lia).
  split; [exact Hsel|]. split; [exact Hlen|].
  rewrite Hsel. intros Heq.
  assert (Hsame : drop (S j) fileName = fileName) by congruence.
  apply (f_equal String.length) in Hsame. rewrite length_drop in Hsame. lia.
Qed.

(** Enter on a row of the listing of the current path: the row is the
    row of an entry that [stat] accepts; if the name of the entry has no
    space, Enter on a directory other than [..] descends into it, and
    Enter on a readable regular file opens the pager on it. *)
Theorem enter_listed_entry (st : NavState) (row : string) :
  listing_in_sync fs st ->
  vec_at (contents st) (choice st) = Some row ->
  fits row ->
  exists (fileName : string) (fileStat : stat_t),
    row = entry_row fileStat fileName /\
    fs_stat fs (currentDir st ++ "/" ++ fileName) = Some fileStat /\
    (last_index " " fileName = None ->
     fileName <> ".." ->
     S_ISDIR (st_mode fileStat) = true ->
     main_enter fs LINES st =
     Some {| nav := {| currentDir := currentDir st ++ "/" ++ fileName;
                       contents := getDirectoryContents fs (currentDir st ++ "/" ++ fileName);
                       choice := 0;
                       backStack := currentDir st :: backStack st;
                       forwardStack := [] |};
             ctl := AtMain |}) /\
    (last_index " " fileName = None ->
     S_ISDIR (st_mode fileStat) = false ->
     S_ISREG (st_mode fileStat) = true ->
     main_enter fs LINES st =
     Some {| nav := st;
             ctl := displayFileContent_open fs LINES (currentDir st ++ "/" ++ fileName) |}).
Proof.
  intros Hsync Hrow Hfits.
  assert (Hin : In row (getDirectoryContents fs (currentDir st))).
  { rewrite <- Hsync. unfold vec_at in Hrow.
    destruct (size_wrap (choice st) <? Z.of_nat (List.length (contents st))); [|discriminate].
    apply nth_error_In in Hrow. exact Hrow. }
  apply getDirectoryContents_rows in Hin.
  destruct Hin as (names & fileName & fileStat & _ & _ & Hstat & Heq).
  exists fileName, fileStat. split; [exact Heq|]. split; [exact Hstat|].
  split.
  - intros Hplain Hne Hdir.
    apply (main_enter_directory fs LINES st row fileName fileStat); auto.
    rewrite Heq. apply selected_of_entry_row; [exact Hplain | rewrite <- Heq; exact Hfits].
  - intros Hplain Hdir Hreg.
    rewrite (main_enter_resolved fs LINES st row fileName Hrow).
    + rewrite Hstat, Hdir, Hreg. reflexivity.
    + rewrite Heq. apply selected_of_entry_row; [exact Hplain | rewrite <- Heq; exact Hfits].
Qed.

End RowsAndNames.


Lemma listing_is_stat_successes_witness :
  (List.length (getDirectoryContents Demo.demo_fs "/a") <= 6)%nat /\
  (forall row : string,
     In row (getDirectoryContents Demo.demo_fs "/a") <->
     exists (fileName : string) (fileStat : stat_t),
       In fileName ["."; ".."; "b"; "f.txt"; "my file"; "locked"]%string /\
       fs_stat Demo.demo_fs ("/a" ++ "/" ++ fileName) = Some fileStat /\
       row = entry_row fileStat fileName) /\
  ((forall fileName : string,
      In fileName ["."; ".."; "b"; "f.txt"; "my file"; "locked"]%string ->
      fs_stat Demo.demo_fs ("/a" ++ "/" ++ fileName) <> None) ->
   List.length (getDirectoryContents Demo.demo_fs "/a") = 6%nat).
Proof.
  apply (listing_is_stat_successes Demo.demo_fs "/a"
           ["."; ".."; "b"; "f.txt"; "my file"; "locked"]%string).
  reflexivity.
Defined.

Lemma selected_name_has_no_space_witness :
  exists name : string,
    selected_of "-rw-r--r-- 12 Oct 30 04:21 my file" = Some name /\
    ends_with "-rw-r--r-- 12 Oct 30 04:21 my file" name /\
    last_index " " name = None /\
    (last_index " " "-rw-r--r-- 12 Oct 30 04:21 my file" = None ->
     name = "-rw-r--r-- 12 Oct 30 04:21 my file"%string).
Proof.
  apply (selected_name_has_no_space "-rw-r--r-- 12 Oct 30 04:21 my file"). reflexivity.
Defined.

Lemma spaced_name_is_cut_witness :
  selected_of (entry_row Demo.file_stat "my file") = Some "file"%string /\
  (String.length "file" < String.length "my file")%nat /\
  selected_of (entry_row Demo.file_stat "my file") <> Some "my file"%string.
Proof.
  apply (spaced_name_is_cut Demo.file_stat "my file" 2); reflexivity.
Defined.

Lemma enter_listed_entry_witness :
  exists (fileName : string) (fileStat : stat_t),
    "drwxr-xr-x 4096 Oct 30 04:21 b"%string = entry_row fileStat fileName /\
    fs_stat Demo.demo_fs ("/a" ++ "/" ++ fileName) = Some fileStat /\
    (last_index " " fileName = None ->
     fileName <> ".."%string ->
     S_ISDIR (st_mode fileStat) = true ->
     main_enter Demo.demo_fs Demo.demo_LINES (Demo.at_a 2) =
     Some {| nav := {| currentDir := "/a" ++ "/" ++ fileName;
                       contents := getDirectoryContents Demo.demo_fs ("/a" ++ "/" ++ fileName);
                       choice := 0;
                       backStack := ["/a"%string];
                       forwardStack := [] |};
             ctl := AtMain |}) /\
    (last_index " " fileName = None ->
     S_ISDIR (st_mode fileStat) = false ->
     S_ISREG (st_mode fileStat) = true ->
     main_enter Demo.demo_fs Demo.demo_LINES (Demo.at_a 2) =
     Some {| nav := Demo.at_a 2;
             ctl := displayFileContent_open Demo.demo_fs Demo.demo_LINES
                      ("/a" ++ "/" ++ fileName) |}).
Proof.
  apply (enter_listed_entry Demo.demo_fs Demo.demo_LINES (Demo.at_a 2)
           "drwxr-xr-x 4096 Oct 30 04:21 b"); reflexivity.
Defined.

(** ** What every key keeps *)
Section Consistency.

Variable fs : FileSystem.
Variable LINES : Z.

Local Open Scope string_scope.
Local Open Scope Z_scope.

Lemma selected_of_total (row : string) : exists name : string, selected_of row = Some name.
Proof.
  unfold selected_of, substr.
  assert (Hpos : size_wrap (find_last_of row " " + 1) <= size row).
  { unfold find_last_of, size. destruct (last_index " " row) as [i|] eqn:Hi.
    - assert (Hlt := last_index_lt _ _ _ Hi).
      unfold size_wrap.
      assert (Hle : (Z.of_nat i + 1) mod 2 ^ 64 <= Z.of_nat i + 1)
        by (apply Z.mod_le; [lia | reflexivity]).
      lia.
    - replace (size_wrap (npos + 1)) with 0 by reflexivity. lia. }
  destruct (Z.ltb_spec (size row) (size_wrap (find_last_of row " " + 1))) as [Hbad|_]; [lia|].
  eexists. reflexivity.
Qed.

Lemma vec_at_nil {A : Type} (i : Z) : vec_at (@nil A) i = None.
Proof.
  unfold vec_at. cbv zeta. change (Z.of_nat (List.length (@nil A))) with 0.
  destruct (Z.ltb_spec (size_wrap i) 0) as [Hbad|_]; [|reflexivity].
  unfold size_wrap in Hbad.
  assert (0 <= i mod 2 ^ 64) by (apply Z.mod_pos_bound; reflexivity). lia.
Qed.

Lemma vec_at_in_range {A : Type} (v : list A) (i : Z) :
  0 <= i < Z.of_nat (List.length v) ->
  Z.of_nat (List.length v) < 2 ^ 31 ->
  exists x : A, vec_at v i = Some x.
Proof.
  intros Hi Hlen. unfold vec_at.
  assert (H31 : 2 ^ 31 = 2147483648) by reflexivity.
  assert (H64 : 2 ^ 64 = 18446744073709551616) by reflexivity.
  rewrite size_wrap_small by lia.
  destruct (Z.ltb_spec i (Z.of_nat (List.length v))) as [_|Hbad]; [|lia].
  destruct (nth_error v (Z.to_nat i)) as [x|] eqn:Hnth; [exists x; reflexivity|].
  apply nth_error_None in Hnth. lia.
Qed.

(** Enter has a defined outcome as soon as the cursor is on a row. *)
Lemma main_enter_defined (st : NavState) (row : string) :
  vec_at (contents st) (choice st) = Some row ->
  exists m : Machine, main_enter fs LINES st = Some m.
Proof.
  intros Hrow. destruct (selected_of_total row) as [selected Hsel].
  rewrite (main_enter_resolved fs LINES st row selected Hrow Hsel).
  destruct (fs_stat fs (currentDir st ++ "/" ++ selected)) as [fileStat|]; [|eexists; reflexivity].
  destruct (S_ISDIR (st_mode fileStat)).
  - destruct (selected =? "..")%string; [|eexists; reflexivity].
    destruct (negb (find_last_of (currentDir st) "/" =? npos)); [|eexists; reflexivity].
    unfold substr.
    destruct (Z.ltb_spec (size (currentDir st)) 0) as [Hbad|_];
      [unfold size in Hbad; lia | eexists; reflexivity].
  - destruct (S_ISREG (st_mode fileStat)); eexists; reflexivity.
Qed.

(** The outcomes of Enter: the locals of [main] are untouched, or the
    listing is reloaded and the cursor reset, either in place or after a
    move that pushes the old path and clears the forward stack. *)
Lemma main_enter_outcome (st : NavState) (m : Machine) :
  main_enter fs LINES st = Some m ->
  nav m = st \/
  (ctl m = AtMain /\
   exists (dir : string) (back fwd : list string),
     nav m = {| currentDir := dir; contents := getDirectoryContents fs dir; choice := 0;
                backStack := back; forwardStack := fwd |} /\
     ((dir = currentDir st /\ back = backStack st /\ fwd = forwardStack st) \/
      (back = currentDir st :: backStack st /\ fwd = []))).
Proof.
  unfold main_enter.
  destruct (vec_at (contents st) (choice st)) as [row|]; [|discriminate].
  destruct (selected_of row) as [selected|]; [|discriminate].
  destruct (fs_stat fs (currentDir st ++ "/" ++ selected)) as [fileStat|];
    [|intros H; injection H as <-; left; reflexivity].
  destruct (S_ISDIR (st_mode fileStat)).
  - destruct (selected =? "..")%string.
    + destruct (negb (find_last_of (currentDir st) "/" =? npos)).
      * destruct (substr (currentDir st) 0 (find_last_of (currentDir st) "/")) as [parent|];
          [|discriminate].
        intros H; injection H as <-. right. split; [reflexivity|].
        exists parent, (currentDir st :: backStack st), []. split; [reflexivity|]. right. auto.
      * intros H; injection H as <-. right. split; [reflexivity|].
        exists (currentDir st), (backStack st), (forwardStack st).
        split; [reflexivity|]. left. auto.
    + intros H; injection H as <-. right. split; [reflexivity|].
      exists (currentDir st ++ "/" ++ selected), (currentDir st :: backStack st), [].
      split; [reflexivity|]. right. auto.
  - destruct (S_ISREG (st_mode fileStat)); intros H; injection H as <-; left; reflexivity.
Qed.

Lemma reload_consistent (dir : string) (back fwd : list string) :
  let st := {| currentDir := dir; contents := getDirectoryContents fs dir; choice := 0;
               backStack := back; forwardStack := fwd |} in
  listing_in_sync fs st /\ cursor_ok st.
Proof.
  cbv zeta. split; [reflexivity|].
  unfold cursor_ok, selection_in_range. simpl.
  destruct (getDirectoryContents fs dir) as [|row rows].
  - right. split; [reflexivity | lia].
  - left. simpl List.length. lia.
Qed.

Lemma up_down_consistent (st : NavState) :
  Z.of_nat (List.length (contents st)) < 2 ^ 31 ->
  cursor_ok st ->
  cursor_ok (main_up st) /\ cursor_ok (main_down st).
Proof.
  intros Hlen Hok.
  assert (H31 : 2 ^ 31 = 2147483648) by reflexivity.
  unfold cursor_ok, selection_in_range, main_up, main_down in *. simpl.
  destruct Hok as [Hin | [Hempty Hc]].
  - rewrite (int_wrap_small (Z.of_nat _)) by lia.
    rewrite !int_wrap_small by lia. split; left; lia.
  - rewrite Hempty. simpl List.length.
    rewrite (int_wrap_small (Z.of_nat 0)) by (simpl; lia).
    rewrite !int_wrap_small by (simpl; lia).
    split; right; (split; [reflexivity | simpl; lia]).
Qed.

Lemma left_right_consistent (st : NavState) :
  listing_in_sync fs st -> cursor_ok st ->
  (listing_in_sync fs (main_left fs st) /\ cursor_ok (main_left fs st)) /\
  (listing_in_sync fs (main_right fs st) /\ cursor_ok (main_right fs st)).
Proof.
  intros Hsync Hok. unfold main_left, main_right. split.
  - destruct (backStack st); [auto | apply reload_consistent].
  - destruct (forwardStack st); [auto | apply reload_consistent].
Qed.

(** Every key keeps the listing in sync with the path and the cursor on
    the listing. *)
Lemma step_keeps_consistent (ch : Z) (m m' : Machine) :
  listings_fit_int fs ->
  listing_in_sync fs (nav m) -> cursor_ok (nav m) ->
  step fs LINES ch m = Some m' ->
  listing_in_sync fs (nav m') /\ cursor_ok (nav m').
Proof.
  intros Hfit Hsync Hok. destruct m as [st c]. simpl in Hsync, Hok.
  assert (Hlen : Z.of_nat (List.length (contents st)) < 2 ^ 31)
    by (rewrite Hsync; apply Hfit).
  destruct c;
    [rewrite step_at_main | rewrite step_at_pager | rewrite step_at_return
     | unfold step; cbn [ctl]].
  - unfold main_key.
    destruct (ch =? KEY_UP).
    { intros H; injection H as <-. simpl. split; [exact Hsync|].
      apply (up_down_consistent st Hlen Hok). }
    destruct (ch =? KEY_DOWN).
    { intros H; injection H as <-. simpl. split; [exact Hsync|].
      apply (up_down_consistent st Hlen Hok). }
    destruct (ch =? 10).
    { intros Henter. apply main_enter_outcome in Henter.
      destruct Henter as [-> | (_ & dir & back & fwd & -> & _)]; [auto|].
      apply reload_consistent. }
    destruct (ch =? KEY_LEFT).
    { intros H; injection H as <-. simpl. apply (left_right_consistent st Hsync Hok). }
    destruct (ch =? KEY_RIGHT).
    { intros H; injection H as <-. simpl. apply (left_right_consistent st Hsync Hok). }
    destruct (ch =? 27); intros H; injection H as <-; auto.
  - intros H; injection H as <-. auto.
  - intros H; injection H as <-. auto.
  - intros H; injection H as <-. auto.
Qed.

Lemma run_keeps_consistent (keys : list Z) (m m' : Machine) :
  listings_fit_int fs ->
  listing_in_sync fs (nav m) -> cursor_ok (nav m) ->
  run fs LINES keys m = Some m' ->
  listing_in_sync fs (nav m') /\ cursor_ok (nav m').
Proof.
  intros Hfit. revert m. induction keys as [|ch keys IH]; intros m Hsync Hok.
  - intros H; injection H as <-. auto.
  - rewrite run_cons. destruct (step fs LINES ch m) as [m1|] eqn:Hstep; [|discriminate].
    destruct (step_keeps_consistent ch m m1 Hfit Hsync Hok Hstep) as [Hsync1 Hok1].
    apply IH; assumption.
Qed.

(** In every state that [main] reaches from its start, whatever the keys,
    the listing shown is the listing of the current path, and the cursor
    is on a row of it (or is 0 or -1 when the listing is empty). *)
Theorem reached_states_are_consistent (cwd : string) (keys : list Z) (m : Machine) :
  listings_fit_int fs ->
  run fs LINES keys (main_init fs cwd) = Some m ->
  listing_in_sync fs (nav m) /\ cursor_ok (nav m).
Proof.
  intros Hfit Hrun.
  destruct (reload_consistent cwd [] []) as [Hsync Hok].
  exact (run_keeps_consistent keys (main_init fs cwd) m Hfit Hsync Hok Hrun).
Qed.

(** In a state that [main] reaches from its start, a key has no defined
    outcome exactly when it is Enter pressed in [main] on an empty
    listing. *)
Theorem undefined_only_on_empty_listing
    (cwd : string) (keys : list Z) (m : Machine) (ch : Z) :
  listings_fit_int fs ->
  run fs LINES keys (main_init fs cwd) = Some m ->
  (step fs LINES ch m = None <-> ctl m = AtMain /\ ch = 10 /\ contents (nav m) = []).
Proof.
  intros Hfit Hrun.
  destruct (reload_consistent cwd [] []) as [Hsync0 Hok0].
  destruct (run_keeps_consistent keys (main_init fs cwd) m Hfit Hsync0 Hok0 Hrun)
    as [Hsync Hok].
  destruct m as [st c]. simpl in *. split.
  - destruct c;
      [rewrite step_at_main | rewrite step_at_pager | rewrite step_at_return
       | unfold step; cbn [ctl]]; try discriminate.
    unfold main_key.
    destruct (ch =? KEY_UP); [discriminate|].
    destruct (ch =? KEY_DOWN); [discriminate|].
    destruct (Z.eqb_spec ch 10) as [->|Hne].
    + intros Hnone. split; [reflexivity|]. split; [reflexivity|].
      destruct Hok as [Hin | [Hempty _]]; [|exact Hempty].
      assert (Hlen : Z.of_nat (List.length (contents st)) < 2 ^ 31)
        by (rewrite Hsync; apply Hfit).
      destruct (vec_at_in_range (contents st) (choice st)) as [row Hrow];
        [unfold selection_in_range in Hin; lia | exact Hlen |].
      destruct (main_enter_defined st row Hrow) as [m' Hm']. congruence.
    + destruct (ch =? KEY_LEFT); [discriminate|].
      destruct (ch =? KEY_RIGHT); [discriminate|].
      destruct (ch =? 27); discriminate.
  - intros (-> & -> & Hempty). rewrite step_at_main.
    change (main_key fs LINES 10 st) with (main_enter fs LINES st).
    unfold main_enter. rewrite Hempty, vec_at_nil. reflexivity.
Qed.

(** Enter on anything but a directory leaves the path, the listing, the
    cursor and both stacks alone: a file of another kind or a regular file
    that cannot be read changes nothing at all, and a readable regular file
    opens the pager on its first line. *)
Theorem enter_non_directory_keeps_state
    (st : NavState) (row selected : string) (fileStat : stat_t) :
  vec_at (contents st) (choice st) = Some row ->
  selected_of row = Some selected ->
  fs_stat fs (currentDir st ++ "/" ++ selected) = Some fileStat ->
  S_ISDIR (st_mode fileStat) = false ->
  exists c : Control,
    main_enter fs LINES st = Some {| nav := st; ctl := c |} /\
    (S_ISREG (st_mode fileStat) = false -> c = AtMain) /\
    (fs_lines fs (currentDir st ++ "/" ++ selected) = None -> c = AtMain) /\
    (forall ls : list string,
       S_ISREG (st_mode fileStat) = true ->
       fs_lines fs (currentDir st ++ "/" ++ selected) = Some ls ->
       exists p : PagerState,
         c = AtPager p /\ filePath p = currentDir st ++ "/" ++ selected /\
         lines p = ls /\ topLine p = 0 /\ currentLine p = 0).
Proof.
  intros Hrow Hsel Hstat Hdir.
  rewrite (main_enter_resolved fs LINES st row selected Hrow Hsel), Hstat, Hdir.
  destruct (S_ISREG (st_mode fileStat)).
  - eexists. split; [reflexivity|]. unfold displayFileContent_open, isReadable.
    destruct (fs_lines fs (currentDir st ++ "/" ++ selected)) as [ls|]; simpl.
    + split; [discriminate|]. split; [discriminate|].
      intros ls' _ Heq. injection Heq as <-. eexists. repeat split.
    + split; [discriminate|]. split; [reflexivity|]. intros ls' _ Heq. discriminate Heq.
  - exists AtMain. split; [reflexivity|]. split; [reflexivity|]. split; [reflexivity|].
    intros ls Hbad. discriminate Hbad.
Qed.

End Consistency.

Lemma demo_listings_fit_int : listings_fit_int Demo.demo_fs.
Proof.
  intros dirPath.
  assert (Hsmall : (List.length (getDirectoryContents Demo.demo_fs dirPath) <= 6)%nat).
  { destruct (fs_readdir Demo.demo_fs dirPath) as [names|] eqn:Hdir.
    - apply Nat.le_trans with (List.length names);
        [apply (getDirectoryContents_length_le Demo.demo_fs dirPath names Hdir)|].
      simpl in Hdir.
      repeat match type of Hdir with
             | (if ?b then _ else _) = _ => destruct b
             end;
        try discriminate Hdir; injection Hdir as <-; simpl; lia.
    - unfold getDirectoryContents. rewrite Hdir. simpl. lia. }
  assert (H31 : 2 ^ 31 = 2147483648) by reflexivity. lia.
Qed.

Lemma reached_states_are_consistent_witness :
  listing_in_sync Demo.demo_fs (Demo.at_c_with_history) /\ cursor_ok (Demo.at_c_with_history).
Proof.
  apply (reached_states_are_consistent Demo.demo_fs Demo.demo_LINES "/a"
           [KEY_DOWN; KEY_DOWN; 10; KEY_DOWN; KEY_DOWN; 10; KEY_DOWN; KEY_DOWN; 10; KEY_LEFT]
           {| nav := Demo.at_c_with_history; ctl := AtMain |}).
  - exact demo_listings_fit_int.
  - reflexivity.
Defined.

Lemma undefined_only_on_empty_listing_witness :
  step Demo.demo_fs Demo.demo_LINES 10
       {| nav := {| currentDir := "/a/locked"; contents := []; choice := -1;
                    backStack := ["/a"%string]; forwardStack := [] |};
          ctl := AtMain |} = None
  <-> AtMain = AtMain /\ 10 = 10 /\ @nil string = [].
Proof.
  apply (undefined_only_on_empty_listing Demo.demo_fs Demo.demo_LINES "/a"
           [KEY_DOWN; KEY_DOWN; KEY_DOWN; KEY_DOWN; KEY_DOWN; 10; KEY_DOWN]
           {| nav := {| currentDir := "/a/locked"; contents := []; choice := -1;
                        backStack := ["/a"%string]; forwardStack := [] |};
              ctl := AtMain |} 10).
  - exact demo_listings_fit_int.
  - reflexivity.
Defined.

Lemma enter_non_directory_keeps_state_witness :
  exists c : Control,
    main_enter Demo.demo_fs Demo.demo_LINES (Demo.at_work 2)
      = Some {| nav := Demo.at_work 2; ctl := c |} /\
    (S_ISREG (st_mode Demo.file_stat) = false -> c = AtMain) /\
    (fs_lines Demo.demo_fs ("work" ++ "/" ++ "notes") = None -> c = AtMain) /\
    (forall ls : list string,
       S_ISREG (st_mode Demo.file_stat) = true ->
       fs_lines Demo.demo_fs ("work" ++ "/" ++ "notes") = Some ls ->
       exists p : PagerState,
         c = AtPager p /\ filePath p = ("work" ++ "/" ++ "notes")%string /\
         lines p = ls /\ topLine p = 0 /\ currentLine p = 0).
Proof.
  apply (enter_non_directory_keeps_state Demo.demo_fs Demo.demo_LINES (Demo.at_work 2)
           "-rw-r--r-- 12 Oct 30 04:21 notes" "notes" Demo.file_stat); reflexivity.
Defined.

(** ** More on the history stacks *)
Section HistoryMore.

Variable fs : FileSystem.
Variable LINES : Z.

Local Open Scope string_scope.
Local Open Scope Z_scope.

Lemma timeline_left (st : NavState) : timeline (main_left fs st) = timeline st.
Proof.
  unfold main_left, timeline. destruct (backStack st) as [|top rest] eqn:Hback.
  - rewrite Hback. reflexivity.
  - simpl. rewrite <- app_assoc. reflexivity.
Qed.

Lemma timeline_right (st : NavState) : timeline (main_right fs st) = timeline st.
Proof.
  unfold main_right, timeline. destruct (forwardStack st) as [|top rest] eqn:Hfwd.
  - rewrite Hfwd. reflexivity.
  - simpl. rewrite <- app_assoc. reflexivity.
Qed.

(** Left and Right only move along the visited paths: after any sequence
    of them the back stack, the current path and the forward stack still
    spell the same sequence of paths. *)
Theorem left_right_keep_timeline (keys : list Z) (st : NavState) :
  Forall is_left_right keys ->
  exists st' : NavState,
    run fs LINES keys {| nav := st; ctl := AtMain |} = Some {| nav := st'; ctl := AtMain |} /\
    timeline st' = timeline st.
Proof.
  intros Hkeys. revert st. induction Hkeys as [|ch keys Hch _ IH]; intros st.
  - exists st. split; reflexivity.
  - rewrite run_cons, step_at_main. destruct Hch as [-> | ->].
    + rewrite main_key_left. destruct (IH (main_left fs st)) as (st' & Hrun & Ht).
      exists st'. split; [exact Hrun|]. rewrite Ht. apply timeline_left.
    + rewrite main_key_right. destruct (IH (main_right fs st)) as (st' & Hrun & Ht).
      exists st'. split; [exact Hrun|]. rewrite Ht. apply timeline_right.
Qed.

(** Right undoes Left and Left undoes Right: where the listing is the
    listing of the current path, a Left that moves followed by Right, and
    a Right that moves followed by Left, give back the state, with the
    cursor on the first row. *)
Theorem left_right_round_trip (st : NavState) :
  listing_in_sync fs st ->
  (backStack st <> [] -> main_right fs (main_left fs st) = with_choice st 0) /\
  (forwardStack st <> [] -> main_left fs (main_right fs st) = with_choice st 0).
Proof.
  intros Hsync. unfold listing_in_sync in Hsync.
  destruct st as [dir rows c back fwd]. simpl in Hsync. subst rows.
  unfold main_left, main_right, with_choice. simpl. split.
  - destruct back as [|top rest]; [intros H; contradiction H; reflexivity|]. reflexivity.
  - destruct fwd as [|top rest]; [intros H; contradiction H; reflexivity|]. reflexivity.
Qed.

(** After an Enter that moves (it pushes onto the back stack), the
    forward stack is empty and Right does nothing. *)
Theorem right_after_move_does_nothing (st : NavState) (m : Machine) :
  main_enter fs LINES st = Some m ->
  backStack (nav m) <> backStack st ->
  forwardStack (nav m) = [] /\
  step fs LINES KEY_RIGHT m = Some m.
Proof.
  intros Henter Hmoved. apply main_enter_outcome in Henter.
  destruct Henter as [Hsame | (Hctl & dir & back & fwd & Hnav & Hcase)].
  - rewrite Hsame in Hmoved. contradiction Hmoved. reflexivity.
  - destruct m as [st' c]. simpl in *. subst c st'. simpl in Hmoved.
    destruct Hcase as [(_ & -> & _) | (-> & ->)].
    + contradiction Hmoved. reflexivity.
    + split; reflexivity.
Qed.

(** Enter on [..] inside a directory A/B, where B holds no separator,
    leads to A; it is a new move, which pushes A/B onto the back stack and
    clears the forward stack, not a step back in the history. *)
Theorem parent_of_entered_directory
    (st : NavState) (A B row : string) (fileStat : stat_t) :
  currentDir st = A ++ "/" ++ B ->
  last_index "/" B = None ->
  fits (currentDir st) ->
  vec_at (contents st) (choice st) = Some row ->
  selected_of row = Some ".." ->
  fs_stat fs (currentDir st ++ "/..") = Some fileStat ->
  S_ISDIR (st_mode fileStat) = true ->
  main_enter fs LINES st =
  Some {| nav := {| currentDir := A;
                    contents := getDirectoryContents fs A;
                    choice := 0;
                    backStack := (A ++ "/" ++ B) :: backStack st;
                    forwardStack := [] |};
          ctl := AtMain |}.
Proof.
  intros Hcur HB Hfits Hrow Hsel Hstat Hdir.
  assert (Hi : last_index "/" (currentDir st) = Some (String.length A)).
  { rewrite Hcur. apply (last_index_app "/" A B HB). }
  rewrite (main_enter_parent fs LINES st row fileStat _ Hrow Hsel Hstat Hdir Hfits Hi).
  rewrite Hcur. change (A ++ "/" ++ B) with (A ++ String "/" B).
  rewrite take_append. reflexivity.
Qed.

End HistoryMore.

Lemma selection_stays_in_range_witness :
  exists st' : NavState,
    run Demo.demo_fs Demo.demo_LINES
        [KEY_DOWN; KEY_DOWN; KEY_UP; KEY_UP; KEY_UP; KEY_DOWN]
        {| nav := Demo.at_a 0; ctl := AtMain |}
      = Some {| nav := st'; ctl := AtMain |} /\
    st' = with_choice (Demo.at_a 0) (choice st') /\
    selection_in_range st'.
Proof.
  apply (selection_stays_in_range Demo.demo_fs Demo.demo_LINES
           [KEY_DOWN; KEY_DOWN; KEY_UP; KEY_UP; KEY_UP; KEY_DOWN] (Demo.at_a 0)).
  - repeat constructor; (left; reflexivity) || (right; reflexivity).
  - reflexivity.
  - split; discriminate.
Defined.

Lemma left_right_keep_timeline_witness :
  exists st' : NavState,
    run Demo.demo_fs Demo.demo_LINES [KEY_LEFT; KEY_RIGHT; KEY_RIGHT; KEY_RIGHT; KEY_LEFT]
        {| nav := Demo.at_c_with_history; ctl := AtMain |}
      = Some {| nav := st'; ctl := AtMain |} /\
    timeline st' = ["/a"; "/a/b"; "/a/b/c"; "/a/b/c/d"]%string.
Proof.
  apply (left_right_keep_timeline Demo.demo_fs Demo.demo_LINES
           [KEY_LEFT; KEY_RIGHT; KEY_RIGHT; KEY_RIGHT; KEY_LEFT] Demo.at_c_with_history).
  repeat constructor; (left; reflexivity) || (right; reflexivity).
Defined.

Lemma left_right_round_trip_witness :
  (backStack Demo.at_c_with_history <> [] ->
   main_right Demo.demo_fs (main_left Demo.demo_fs Demo.at_c_with_history)
     = with_choice Demo.at_c_with_history 0) /\
  (forwardStack Demo.at_c_with_history <> [] ->
   main_left Demo.demo_fs (main_right Demo.demo_fs Demo.at_c_with_history)
     = with_choice Demo.at_c_with_history 0).
Proof.
  apply (left_right_round_trip Demo.demo_fs Demo.at_c_with_history). reflexivity.
Defined.

Lemma right_after_move_does_nothing_witness :
  forwardStack {| currentDir := "/a/b/c/."; contents := []; choice := 0;
                  backStack := ["/a/b/c"; "/a/b"; "/a"]%string; forwardStack := [] |} = [] /\
  step Demo.demo_fs Demo.demo_LINES KEY_RIGHT
       {| nav := {| currentDir := "/a/b/c/."; contents := []; choice := 0;
                    backStack := ["/a/b/c"; "/a/b"; "/a"]%string; forwardStack := [] |};
          ctl := AtMain |}
    = Some {| nav := {| currentDir := "/a/b/c/."; contents := []; choice := 0;
                        backStack := ["/a/b/c"; "/a/b"; "/a"]%string; forwardStack := [] |};
              ctl := AtMain |}.
Proof.
  apply (right_after_move_does_nothing Demo.demo_fs Demo.demo_LINES Demo.at_c_with_history
           {| nav := {| currentDir := "/a/b/c/."; contents := []; choice := 0;
                        backStack := ["/a/b/c"; "/a/b"; "/a"]%string; forwardStack := [] |};
              ctl := AtMain |}).
  - reflexivity.
  - discriminate.
Defined.

Lemma parent_of_entered_directory_witness :
  main_enter Demo.demo_fs Demo.demo_LINES (Demo.at_b 1) =
  Some {| nav := {| currentDir := "/a";
                    contents := getDirectoryContents Demo.demo_fs "/a";
                    choice := 0;
                    backStack := ["/a/b"; "/a"]%string;
                    forwardStack := [] |};
          ctl := AtMain |}.
Proof.
  apply (parent_of_entered_directory Demo.demo_fs Demo.demo_LINES (Demo.at_b 1)
           "/a" "b" "drwxr-xr-x 4096 Oct 30 04:21 .." Demo.dir_stat); reflexivity.
Defined.

(** ** More on the pager *)
Section PagerMore.

Variable fs : FileSystem.
Variable LINES : Z.

Local Open Scope Z_scope.

(** Up without machine arithmetic. *)
Lemma pager_up_exact (p : PagerState) :
  scroll_invariant p -> pager_bounded p ->
  pager_up p =
  {| filePath := filePath p; lines := lines p; totalLines := totalLines p;
     visibleRows := visibleRows p;
     topLine := Z.min (topLine p) (Z.max 0 (currentLine p - 1));
     currentLine := Z.max 0 (currentLine p - 1) |}.
Proof.
  intros [Hlo Hhi] (Htop & Hcur & Htotal & Hrows & Hsum).
  assert (H31 : 2 ^ 31 = 2147483648) by reflexivity.
  unfold pager_up.
  destruct (Z.ltb_spec 0 (currentLine p)) as [Hpos|Hzero].
  - rewrite (int_wrap_small (currentLine p - 1)) by lia.
    destruct (Z.ltb_spec (currentLine p - 1) (topLine p)) as [Hadj|Hkeep].
    + rewrite int_wrap_small by lia. f_equal; lia.
    + f_equal; lia.
  - destruct (Z.ltb_spec (currentLine p) (topLine p)) as [Hadj|Hkeep]; [lia|].
    f_equal; lia.
Qed.

(** Down without machine arithmetic. *)
Lemma pager_down_exact (p : PagerState) :
  scroll_invariant p -> pager_bounded p ->
  pager_down p =
  {| filePath := filePath p; lines := lines p; totalLines := totalLines p;
     visibleRows := visibleRows p;
     topLine := Z.max (topLine p)
                  (Z.min (currentLine p + 1) (Z.max 0 (totalLines p - 1)) - visibleRows p + 1);
     currentLine := Z.min (currentLine p + 1) (Z.max 0 (totalLines p - 1)) |}.
Proof.
  intros [Hlo Hhi] (Htop & Hcur & Htotal & Hrows & Hsum).
  assert (H31 : 2 ^ 31 = 2147483648) by reflexivity.
  unfold pager_down.
  rewrite (int_wrap_small (totalLines p - 1)) by lia.
  rewrite (int_wrap_small (topLine p + visibleRows p)) by lia.
  destruct (Z.ltb_spec (currentLine p) (totalLines p - 1)) as [Hmore|Hlast].
  - rewrite (int_wrap_small (currentLine p + 1)) by lia.
    destruct (Z.leb_spec (topLine p + visibleRows p) (currentLine p + 1)) as [Hadj|Hkeep].
    + rewrite int_wrap_small by lia. f_equal; lia.
    + f_equal; lia.
  - destruct (Z.leb_spec (topLine p + visibleRows p) (currentLine p)) as [Hadj|Hkeep]; [lia|].
    f_equal; lia.
Qed.

(** Whatever the key, the pager keeps its invariants and its window
    inside the file. *)
Lemma pager_key_keeps (ch : Z) (p p' : PagerState) :
  scroll_invariant p -> pager_bounded p -> window_in_file p ->
  pager_key ch p = AtPager p' ->
  scroll_invariant p' /\ pager_bounded p' /\ window_in_file p' /\
  lines p' = lines p /\ visibleRows p' = visibleRows p.
Proof.
  intros Hinv Hbound Hwin.
  assert (Hup := pager_up_exact p Hinv Hbound).
  assert (Hdown := pager_down_exact p Hinv Hbound).
  destruct Hinv as [Hlo Hhi]. destruct Hbound as (Htop & Hcur & Htotal & Hrows & Hsum).
  destruct Hwin as [Hw0 Hw1].
  unfold pager_key.
  destruct (ch =? KEY_UP).
  { intros H; injection H as <-. rewrite Hup.
    unfold scroll_invariant, pager_bounded, window_in_file; simpl.
    repeat split; try assumption; lia. }
  destruct (ch =? KEY_DOWN).
  { intros H; injection H as <-. rewrite Hdown.
    unfold scroll_invariant, pager_bounded, window_in_file; simpl.
    repeat split; try assumption; lia. }
  destruct (ch =? 27); [discriminate|].
  intros H; injection H as <-.
  unfold scroll_invariant, pager_bounded, window_in_file.
  repeat split; try assumption; lia.
Qed.

Lemma pager_open_window (path : string) (p0 : PagerState) :
  displayFileContent_open fs LINES path = AtPager p0 ->
  1 <= LINES - 2 ->
  LINES + Z.of_nat (List.length (lines p0)) < 2 ^ 31 ->
  scroll_invariant p0 /\ pager_bounded p0 /\ window_in_file p0 /\
  topLine p0 = 0 /\ currentLine p0 = 0 /\ visibleRows p0 = LINES - 2.
Proof.
  intros Hopen Hrows Hsize.
  destruct (pager_open_bounded fs LINES path p0 Hopen Hrows Hsize) as [Hinv Hbound].
  unfold displayFileContent_open in Hopen.
  destruct (negb (isReadable fs path)); [discriminate|].
  destruct (fs_lines fs path) as [ls|]; [|discriminate].
  injection Hopen as <-. simpl in *.
  assert (H31 : 2 ^ 31 = 2147483648) by reflexivity.
  split; [exact Hinv|]. split; [exact Hbound|].
  unfold window_in_file; simpl.
  rewrite !int_wrap_small by lia. repeat split; lia.
Qed.

Lemma pager_run_left (keys : list Z) (c : Control) :
  (forall p, c <> AtPager p) ->
  fold_left (fun c ch => match c with AtPager q => pager_key ch q | _ => c end) keys c = c.
Proof.
  intros Hc. induction keys as [|ch keys IH]; simpl; [reflexivity|].
  destruct c as [|q| |]; try exact IH. contradiction (Hc q). reflexivity.
Qed.

(** A run that is still in the pager went through the pager at each key. *)
Lemma pager_run_step (ch : Z) (keys : list Z) (p p' : PagerState) :
  pager_run (ch :: keys) p = AtPager p' ->
  exists q : PagerState, pager_key ch p = AtPager q /\ pager_run keys q = AtPager p'.
Proof.
  unfold pager_run. simpl.
  destruct (pager_key ch p) as [|q| |] eqn:Hkey; intros Hrun.
  - rewrite pager_run_left in Hrun by discriminate. discriminate.
  - exists q. split; [reflexivity | exact Hrun].
  - rewrite pager_run_left in Hrun by discriminate. discriminate.
  - rewrite pager_run_left in Hrun by discriminate. discriminate.
Qed.

Lemma pager_run_app (keys keys' : list Z) (p q : PagerState) :
  pager_run keys p = AtPager q ->
  pager_run (keys ++ keys') p = pager_run keys' q.
Proof.
  unfold pager_run. intros Hrun. rewrite fold_left_app, Hrun. reflexivity.
Qed.

Lemma pager_run_keeps (keys : list Z) (p p' : PagerState) :
  scroll_invariant p -> pager_bounded p -> window_in_file p ->
  pager_run keys p = AtPager p' ->
  scroll_invariant p' /\ pager_bounded p' /\ window_in_file p' /\
  lines p' = lines p /\ visibleRows p' = visibleRows p.
Proof.
  revert p. induction keys as [|ch keys IH]; intros p Hinv Hbound Hwin Hrun.
  - injection Hrun as <-. auto.
  - apply pager_run_step in Hrun. destruct Hrun as (q & Hkey & Hrun).
    destruct (pager_key_keeps ch p q Hinv Hbound Hwin Hkey) as (Hq1 & Hq2 & Hq3 & Hq4 & Hq5).
    destruct (IH q Hq1 Hq2 Hq3 Hrun) as (H1 & H2 & H3 & H4 & H5).
    split; [exact H1|]. split; [exact H2|]. split; [exact H3|]. split; congruence.
Qed.

(** As long as the pager is open, whatever keys were pressed, the window
    starts inside the file (the top line is not past the last full
    window), the current line is a line of the file, and it is inside
    the window. *)
Theorem pager_window_stays_in_file (path : string) (p0 p : PagerState) (keys : list Z) :
  displayFileContent_open fs LINES path = AtPager p0 ->
  1 <= LINES - 2 ->
  LINES + Z.of_nat (List.length (lines p0)) < 2 ^ 31 ->
  pager_run keys p0 = AtPager p ->
  lines p = lines p0 /\
  0 <= topLine p <= Z.max 0 (Z.of_nat (List.length (lines p)) - (LINES - 2)) /\
  0 <= currentLine p <= Z.max 0 (Z.of_nat (List.length (lines p)) - 1) /\
  topLine p <= currentLine p < topLine p + (LINES - 2).
Proof.
  intros Hopen Hrows Hsize Hrun.
  destruct (pager_open_window path p0 Hopen Hrows Hsize)
    as (Hinv0 & Hbound0 & Hwin0 & _ & _ & Hvis0).
  destruct (pager_run_keeps keys p0 p Hinv0 Hbound0 Hwin0 Hrun)
    as (Hinv & Hbound & Hwin & Hlines & Hvis).
  destruct Hbound as (Htop & Hcur & Htotal & _).
  unfold window_in_file in Hwin. unfold scroll_invariant in Hinv.
  rewrite Hvis, Hvis0 in *. rewrite Htotal in *.
  split; [exact Hlines|]. split; [exact Hwin|]. split; [exact Hcur | exact Hinv].
Qed.

(** Up on the first line and Down on the last line change nothing. *)
Theorem pager_edges_do_nothing (p : PagerState) :
  scroll_invariant p -> pager_bounded p ->
  (currentLine p = 0 -> pager_key KEY_UP p = AtPager p) /\
  (currentLine p = Z.max 0 (totalLines p - 1) -> pager_key KEY_DOWN p = AtPager p).
Proof.
  intros Hinv Hbound.
  assert (Hup := pager_up_exact p Hinv Hbound).
  assert (Hdown := pager_down_exact p Hinv Hbound).
  destruct Hinv as [Hlo Hhi]. destruct Hbound as (Htop & Hcur & Htotal & Hrows & Hsum).
  split; intros Hedge.
  - change (pager_key KEY_UP p) with (AtPager (pager_up p)). rewrite Hup.
    destruct p; simpl in *. f_equal. f_equal; lia.
  - change (pager_key KEY_DOWN p) with (AtPager (pager_down p)). rewrite Hdown.
    destruct p; simpl in *. f_equal. f_equal; lia.
Qed.

(** [k] Downs from a state of the pager. *)
Lemma pager_downs (k : nat) (p : PagerState) :
  scroll_invariant p -> pager_bounded p -> window_in_file p ->
  pager_run (presses k KEY_DOWN) p =
  AtPager
    {| filePath := filePath p; lines := lines p; totalLines := totalLines p;
       visibleRows := visibleRows p;
       topLine := Z.max (topLine p)
                    (Z.min (currentLine p + Z.of_nat k) (Z.max 0 (totalLines p - 1))
                     - visibleRows p + 1);
       currentLine := Z.min (currentLine p + Z.of_nat k) (Z.max 0 (totalLines p - 1)) |}.
Proof.
  revert p. induction k as [|k IH]; intros p Hinv Hbound Hwin.
  - unfold presses, pager_run; simpl.
    destruct Hinv as [Hlo Hhi]. destruct Hbound as (Htop & Hcur & _).
    destruct p; simpl in *. f_equal. f_equal; lia.
  - assert (Hkey : pager_key KEY_DOWN p = AtPager (pager_down p)) by reflexivity.
    destruct (pager_key_keeps KEY_DOWN p (pager_down p) Hinv Hbound Hwin Hkey)
      as (Hinv' & Hbound' & Hwin' & _).
    change (presses (S k) KEY_DOWN) with (KEY_DOWN :: presses k KEY_DOWN).
    rewrite (pager_run_cons KEY_DOWN _ p (pager_down p) Hkey).
    rewrite (IH (pager_down p) Hinv' Hbound' Hwin').
    rewrite (pager_down_exact p Hinv Hbound). simpl.
    destruct Hinv as [Hlo Hhi]. destruct Hbound as (Htop & Hcur & _).
    f_equal. f_equal; lia.
Qed.

(** [k] Ups from a state of the pager. *)
Lemma pager_ups (k : nat) (p : PagerState) :
  scroll_invariant p -> pager_bounded p -> window_in_file p ->
  pager_run (presses k KEY_UP) p =
  AtPager
    {| filePath := filePath p; lines := lines p; totalLines := totalLines p;
       visibleRows := visibleRows p;
       topLine := Z.min (topLine p) (Z.max 0 (currentLine p - Z.of_nat k));
       currentLine := Z.max 0 (currentLine p - Z.of_nat k) |}.
Proof.
  revert p. induction k as [|k IH]; intros p Hinv Hbound Hwin.
  - unfold presses, pager_run; simpl.
    destruct Hinv as [Hlo Hhi]. destruct Hbound as (Htop & Hcur & _).
    destruct p; simpl in *. f_equal. f_equal; lia.
  - assert (Hkey : pager_key KEY_UP p = AtPager (pager_up p)) by reflexivity.
    destruct (pager_key_keeps KEY_UP p (pager_up p) Hinv Hbound Hwin Hkey)
      as (Hinv' & Hbound' & Hwin' & _).
    change (presses (S k) KEY_UP) with (KEY_UP :: presses k KEY_UP).
    rewrite (pager_run_cons KEY_UP _ p (pager_up p) Hkey).
    rewrite (IH (pager_up p) Hinv' Hbound' Hwin').
    rewrite (pager_up_exact p Hinv Hbound). simpl.
    destruct Hinv as [Hlo Hhi]. destruct Hbound as (Htop & Hcur & _).
    f_equal. f_equal; lia.
Qed.

(** From the opening of the pager, [k] Downs lead to line
    [min(k, last line)] with the window scrolled just enough to show it,
    and [k] Ups after them lead back to the opening state exactly. *)
Theorem downs_then_ups_return (path : string) (p0 : PagerState) (k : nat) :
  displayFileContent_open fs LINES path = AtPager p0 ->
  1 <= LINES - 2 ->
  LINES + Z.of_nat (List.length (lines p0)) < 2 ^ 31 ->
  (exists p : PagerState,
     pager_run (presses k KEY_DOWN) p0 = AtPager p /\
     currentLine p = Z.min (Z.of_nat k) (Z.max 0 (Z.of_nat (List.length (lines p0)) - 1)) /\
     topLine p = Z.max 0 (currentLine p - (LINES - 2) + 1)) /\
  pager_run (presses k KEY_DOWN ++ presses k KEY_UP) p0 = AtPager p0.
Proof.
  intros Hopen Hrows Hsize.
  destruct (pager_open_window path p0 Hopen Hrows Hsize)
    as (Hinv0 & Hbound0 & Hwin0 & Htop0 & Hcur0 & Hvis0).
  assert (Hdowns := pager_downs k p0 Hinv0 Hbound0 Hwin0).
  assert (Htotal : totalLines p0 = Z.of_nat (List.length (lines p0))) by apply Hbound0.
  split.
  - eexists. split; [exact Hdowns|]. simpl.
    rewrite Htop0, Hcur0, Hvis0, Htotal. split; [f_equal; lia | reflexivity].
  - rewrite (pager_run_app _ _ p0 _ Hdowns).
    destruct (pager_run_keeps _ p0 _ Hinv0 Hbound0 Hwin0 Hdowns) as (Hinv1 & Hbound1 & Hwin1 & _).
    rewrite (pager_ups k _ Hinv1 Hbound1 Hwin1). simpl.
    destruct Hbound0 as (_ & _ & _ & Hvr & _).
    destruct p0; simpl in *. subst. f_equal. f_equal; lia.
Qed.

End PagerMore.

Lemma pager_window_stays_in_file_witness :
  let p0 := {| filePath := "/a/f.txt"; lines := ["one"; "two"; "three"; "four"]%string;
               totalLines := 4; visibleRows := 2; topLine := 0; currentLine := 0 |} in
  let p := {| filePath := "/a/f.txt"; lines := ["one"; "two"; "three"; "four"]%string;
              totalLines := 4; visibleRows := 2; topLine := 2; currentLine := 3 |} in
  lines p = lines p0 /\
  0 <= topLine p <= Z.max 0 (Z.of_nat (List.length (lines p)) - (4 - 2)) /\
  0 <= currentLine p <= Z.max 0 (Z.of_nat (List.length (lines p)) - 1) /\
  topLine p <= currentLine p < topLine p + (4 - 2).
Proof.
  cbv zeta.
  apply (pager_window_stays_in_file Demo.demo_fs 4 "/a/f.txt" _ _
           [KEY_DOWN; KEY_DOWN; 65; KEY_DOWN; KEY_DOWN; KEY_DOWN]).
  - reflexivity.
  - discriminate.
  - reflexivity.
  - reflexivity.
Defined.

Lemma pager_edges_do_nothing_witness :
  let p := {| filePath := "/a/f.txt"; lines := ["one"]%string;
              totalLines := 1; visibleRows := 22; topLine := 0; currentLine := 0 |} in
  (currentLine p = 0 -> pager_key KEY_UP p = AtPager p) /\
  (currentLine p = Z.max 0 (totalLines p - 1) -> pager_key KEY_DOWN p = AtPager p).
Proof.
  cbv zeta. apply pager_edges_do_nothing.
  - split; [discriminate | reflexivity].
  - repeat split; discriminate.
Defined.

Lemma downs_then_ups_return_witness :
  let p0 := {| filePath := "/a/f.txt"; lines := ["one"; "two"; "three"; "four"]%string;
               totalLines := 4; visibleRows := 2; topLine := 0; currentLine := 0 |} in
  (exists p : PagerState,
     pager_run (presses 7 KEY_DOWN) p0 = AtPager p /\
     currentLine p = Z.min (Z.of_nat 7) (Z.max 0 (Z.of_nat (List.length (lines p0)) - 1)) /\
     topLine p = Z.max 0 (currentLine p - (4 - 2) + 1)) /\
  pager_run (presses 7 KEY_DOWN ++ presses 7 KEY_UP) p0 = AtPager p0.
Proof.
  cbv zeta. apply (downs_then_ups_return Demo.demo_fs 4 "/a/f.txt").
  - reflexivity.
  - discriminate.
  - reflexivity.
Defined.

(** ** What is drawn *)
Section Drawing.

Local Open Scope string_scope.
Local Open Scope Z_scope.

Lemma rows_from_cons {A : Type} (f : Z -> A) (i : Z) (n : nat) :
  rows_from f i (S n) = f i :: rows_from f (i + 1) n.
Proof.
  unfold rows_from. simpl. rewrite Z.add_0_r. f_equal.
  rewrite <- seq_shift, map_map. apply map_ext. intros j. f_equal. lia.
Qed.

Lemma in_rows_from {A : Type} (f : Z -> A) (i : Z) (n : nat) (d : A) :
  In d (rows_from f i n) <-> exists k : Z, i <= k < i + Z.of_nat n /\ d = f k.
Proof.
  unfold rows_from. rewrite in_map_iff. split.
  - intros (j & <- & Hj). apply in_seq in Hj. exists (i + Z.of_nat j). split; [lia | reflexivity].
  - intros (k & Hk & ->). exists (Z.to_nat (k - i)). split.
    + f_equal. lia.
    + apply in_seq. lia.
Qed.

Lemma vec_at_some {A : Type} (v : list A) (j : Z) (d : A) :
  0 <= j < Z.of_nat (List.length v) ->
  j < 2 ^ 64 ->
  vec_at v j = Some (nth (Z.to_nat j) v d).
Proof.
  intros Hj Hsmall. unfold vec_at. rewrite size_wrap_small by lia.
  destruct (Z.ltb_spec j (Z.of_nat (List.length v))) as [_|Hbad]; [|lia].
  apply nth_error_nth'. lia.
Qed.

Lemma map_nth_seq {A : Type} (l : list A) (d : A) :
  map (fun j => nth j l d) (seq 0 (List.length l)) = l.
Proof.
  induction l as [|a l IH]; [reflexivity|].
  cbn [List.length seq map nth]. f_equal.
  rewrite <- seq_shift, map_map. exact IH.
Qed.

(** The loop that prints the listing, in closed form. *)
Lemma main_draw_from_exact (st : NavState) (n : nat) (i : Z) :
  Z.of_nat (List.length (contents st)) < 2 ^ 31 ->
  0 <= i ->
  Z.of_nat n + i = Z.of_nat (List.length (contents st)) ->
  main_draw_from n i st =
  Some (rows_from
          (fun k => {| draw_row := k + 1;
                       draw_text := nth (Z.to_nat k) (contents st) "";
                       draw_reverse := k =? choice st |})
          i n).
Proof.
  intros Hlen. assert (H31 : 2 ^ 31 = 2147483648) by reflexivity.
  assert (H64 : 2 ^ 64 = 18446744073709551616) by reflexivity.
  revert i. induction n as [|n IH]; intros i Hi Hsum; [reflexivity|].
  cbn [main_draw_from].
  rewrite size_wrap_small by lia.
  destruct (Z.ltb_spec i (Z.of_nat (List.length (contents st)))) as [_|Hbad]; [|lia].
  rewrite (vec_at_some (contents st) i "") by lia.
  rewrite (int_wrap_small (i + 1)) by lia.
  rewrite IH by lia. rewrite rows_from_cons. reflexivity.
Qed.

(** The redraw of [main] prints the path on row 0 and the rows of the
    listing below it, one per screen row and in order, without reading
    outside the listing; the row drawn in reverse is the row under the
    cursor, which is the row that Enter acts on, and no other row is drawn
    in reverse. *)
Theorem main_draw_highlights_selection (st : NavState) :
  Z.of_nat (List.length (contents st)) < 2 ^ 31 ->
  - 2 ^ 31 <= choice st < 2 ^ 31 ->
  exists rows : list Draw,
    main_draw st =
      Some ({| draw_row := 0; draw_text := "Directory: " ++ currentDir st;
               draw_reverse := false |} :: rows) /\
    map draw_text rows = contents st /\
    map draw_row rows = map (fun j => Z.of_nat j + 1) (seq 0 (List.length (contents st))) /\
    (forall text : string,
       vec_at (contents st) (choice st) = Some text ->
       In {| draw_row := choice st + 1; draw_text := text; draw_reverse := true |} rows) /\
    (forall d : Draw,
       In d rows -> draw_reverse d = true ->
       draw_row d = choice st + 1 /\ vec_at (contents st) (choice st) = Some (draw_text d)).
Proof.
  intros Hlen Hint.
  assert (H31 : 2 ^ 31 = 2147483648) by reflexivity.
  assert (H64 : 2 ^ 64 = 18446744073709551616) by reflexivity.
  eexists. unfold main_draw.
  rewrite (main_draw_from_exact st (List.length (contents st)) 0 Hlen) by lia.
  split; [reflexivity|]. split; [|split; [|split]].
  - unfold rows_from. rewrite map_map. cbn [draw_text].
    rewrite <- (map_nth_seq (contents st) "") at 2.
    apply map_ext. intros j. f_equal. lia.
  - unfold rows_from. rewrite map_map. simpl. reflexivity.
  - intros text Htext. apply in_rows_from.
    assert (Hrange : 0 <= choice st < Z.of_nat (List.length (contents st))).
    { unfold vec_at, size_wrap in Htext.
      destruct (Z.ltb_spec (choice st mod 2 ^ 64) (Z.of_nat (List.length (contents st))))
        as [Hlt|_]; [|discriminate].
      destruct (Z_lt_le_dec (choice st) 0) as [Hneg|Hpos].
      - assert (Hmod : choice st + 2 ^ 64 = choice st mod 2 ^ 64)
          by (apply (Z.mod_unique (choice st) (2 ^ 64) (-1)); lia).
        lia.
      - rewrite Z.mod_small in Hlt by lia. lia. }
    exists (choice st). split; [lia|].
    rewrite (vec_at_some (contents st) (choice st) "") in Htext by lia.
    injection Htext as <-. rewrite Z.eqb_refl. reflexivity.
  - intros d Hd Hrev. apply in_rows_from in Hd. destruct Hd as (k & Hk & ->).
    simpl in *. apply Z.eqb_eq in Hrev. subst k. split; [reflexivity|].
    apply vec_at_some; lia.
Qed.



End Drawing.

Lemma main_draw_highlights_selection_witness :
  exists rows : list Draw,
    main_draw (Demo.at_a 2) =
      Some ({| draw_row := 0; draw_text := "Directory: /a"; draw_reverse := false |} :: rows) /\
    map draw_text rows = contents (Demo.at_a 2) /\
    map draw_row rows = [1; 2; 3; 4; 5; 6] /\
    (forall text : string,
       vec_at (contents (Demo.at_a 2)) 2 = Some text ->
       In {| draw_row := 2 + 1; draw_text := text; draw_reverse := true |} rows) /\
    (forall d : Draw,
       In d rows -> draw_reverse d = true ->
       draw_row d = 2 + 1 /\ vec_at (contents (Demo.at_a 2)) 2 = Some (draw_text d)).
Proof.
  apply (main_draw_highlights_selection (Demo.at_a 2)).
  - reflexivity.
  - split; [discriminate | reflexivity].
Defined.

